(* ===================================================================== *)
(* Blog-post CRUD service (Flask + SQLAlchemy): model and properties     *)
(*                                                                       *)
(*   src/db.py    configuration check, BlogPost entity, save / delete /  *)
(*                to_dict                                                *)
(*   src/main.py  the URL map and the six request handlers               *)
(*                                                                       *)
(* Python strings are modelled as [string] (sequences of ASCII           *)
(* characters; request paths outside ASCII are not modelled), a UUID as  *)
(* its 128-bit integer (uuid.UUID.int) in N, the blogposts table as a    *)
(* finite map from primary key to row, and handlers as computations in a *)
(* state-and-exception monad over a world holding the table, the live    *)
(* session objects, an event log and the environment's oracles.          *)
(*                                                                       *)
(* What the libraries do is part of the model where the program relies   *)
(* on it: Werkzeug's URL converters and rule matching, Flask's mapping   *)
(* of exceptions to responses, SQLAlchemy's unit of work and its         *)
(* wrapping of driver errors, uuid's text form.                          *)
(* ===================================================================== *)

From Stdlib Require Import NArith ZArith Ascii String.
From stdpp Require Import gmap strings list fin_maps.

Open Scope string_scope.

#[local] Set Warnings "-register-all".
#[local] Set Warnings "-notation-overridden".

(* ===================================================================== *)
(* 1. Characters, UUID text form, URL converters                         *)
(* ===================================================================== *)

Module Text.

Definition is_digit (c : ascii) : bool :=
  let n := N_of_ascii c in ((48 <=? n) && (n <=? 57))%N.

Definition is_hex (c : ascii) : bool :=
  let n := N_of_ascii c in
  (((48 <=? n) && (n <=? 57)) || ((97 <=? n) && (n <=? 102))
   || ((65 <=? n) && (n <=? 70)))%N.

Definition is_hyphen (c : ascii) : bool := (N_of_ascii c =? 45)%N.
Definition is_slash (c : ascii) : bool := (N_of_ascii c =? 47)%N.
Definition is_nul (c : ascii) : bool := (N_of_ascii c =? 0)%N.

(* value of a hexadecimal digit, as int(c, 16) reads it *)
Definition hex_value (c : ascii) : option N :=
  let n := N_of_ascii c in
  if ((48 <=? n) && (n <=? 57))%N then Some (n - 48)%N
  else if ((97 <=? n) && (n <=? 102))%N then Some (n - 87)%N
  else if ((65 <=? n) && (n <=? 70))%N then Some (n - 55)%N
  else None.

(* the digit '%x' prints for a value below 16 *)
Definition hex_char (d : N) : ascii :=
  if (d <? 10)%N then ascii_of_N (48 + d) else ascii_of_N (87 + d).

(* '%0kx' % n, for n < 16^k: k lower-case digits, most significant first *)
Fixpoint hex_digits (k : nat) (n : N) : string :=
  match k with
  | O => EmptyString
  | S k' => hex_digits k' (n / 16) ++ String (hex_char (n mod 16)) EmptyString
  end.

(* int(s, 16) on a string of hexadecimal digits *)
Fixpoint parse_hex_from (acc : N) (s : string) : option N :=
  match s with
  | EmptyString => Some acc
  | String c s' =>
      match hex_value c with
      | Some d => parse_hex_from (16 * acc + d) s'
      | None => None
      end
  end.

Definition parse_hex (s : string) : option N :=
  match s with EmptyString => None | _ => parse_hex_from 0 s end.

(* s.replace('-', '') *)
Fixpoint remove_hyphens (s : string) : string :=
  match s with
  | EmptyString => EmptyString
  | String c s' =>
      if is_hyphen c then remove_hyphens s' else String c (remove_hyphens s')
  end.

Fixpoint all_chars (p : ascii -> bool) (s : string) : bool :=
  match s with
  | EmptyString => true
  | String c s' => p c && all_chars p s'
  end.

Fixpoint has_char (p : ascii -> bool) (s : string) : bool :=
  match s with
  | EmptyString => false
  | String c s' => p c || has_char p s'
  end.

(* s.split('/') *)
Fixpoint split_slash (s : string) : list string :=
  match s with
  | EmptyString => [EmptyString]
  | String c s' =>
      if is_slash c then EmptyString :: split_slash s'
      else match split_slash s' with
           | [] => [String c EmptyString]
           | h :: t => String c h :: t
           end
  end.

(* s.lstrip('/') *)
Fixpoint lstrip_slash (s : string) : string :=
  match s with
  | EmptyString => EmptyString
  | String c s' => if is_slash c then lstrip_slash s' else s
  end.

(* re.sub("/{2,}", "/", s): every run of slashes becomes one slash (a
   slash that another slash follows is dropped) *)
Fixpoint merge_slashes (s : string) : string :=
  match s with
  | EmptyString => EmptyString
  | String c s' =>
      match s' with
      | EmptyString => s
      | String c' _ =>
          if is_slash c && is_slash c'
          then merge_slashes s'
          else String c (merge_slashes s')
      end
  end.

End Text.

(* --------------------------------------------------------------------- *)
(* uuid.UUID                                                              *)
(* --------------------------------------------------------------------- *)

Module Uuid.
Import Text.

(* UUID.int; the constructor keeps it in [0, 2^128) *)
Definition t := N.

Definition in_range (u : t) : Prop := (u < 2 ^ 128)%N.

(* UUID.__str__:
     hex = '%032x' % self.int
     '%s-%s-%s-%s-%s' % (hex[:8], hex[8:12], hex[12:16], hex[16:20], hex[20:]) *)
Definition hex32 (u : t) : string := hex_digits 32 u.

Definition str (u : t) : string :=
  let h := hex32 u in
  substring 0 8 h ++ "-" ++ substring 8 4 h ++ "-" ++ substring 12 4 h
  ++ "-" ++ substring 16 4 h ++ "-" ++ substring 20 12 h.

(* UUID(hex=s) on a string without 'urn:', 'uuid:' or braces:
     hex = s.replace('-', ''); len(hex) must be 32; int(hex, 16) *)
Definition of_string (s : string) : option t :=
  let h := remove_hyphens s in
  if Nat.eqb (String.length h) 32 then parse_hex h else None.

(* uuid4(): UUID(bytes=os.urandom(16), version=4). The constructor clears
   and sets the variant and version bits:
     int &= ~(0xc000 << 48); int |= 0x8000 << 48
     int &= ~(0xf000 << 64); int |= 4 << 76 *)
Definition uuid4 (random : N) : t :=
  let i0 := (random mod 2 ^ 128)%N in
  let i1 := N.ldiff i0 (N.shiftl 0xc000 48) in
  let i2 := N.lor i1 (N.shiftl 0x8000 48) in
  let i3 := N.ldiff i2 (N.shiftl 0xf000 64) in
  N.lor i3 (N.shiftl 4 76).

End Uuid.

(* ===================================================================== *)
(* 2. Python values and exceptions                                       *)
(* ===================================================================== *)

Module Py.

(* what request.json and jsonify exchange; a float keeps its literal *)
Inductive value :=
| VNone
| VBool (b : bool)
| VInt (z : Z)
| VFloat (literal : string)
| VStr (s : string)
| VList (l : list value)
| VDict (d : list (string * value))
| VDatetime (t : Z).

(* PEP 249 exception classes, below Error *)
Inductive dbapi_class :=
| InterfaceError | DatabaseError | DataError | OperationalError
| IntegrityError | InternalError | ProgrammingError | NotSupportedError.

Inductive exn_class :=
| KeyError
| TypeError
| ValueError
| Psycopg2 (k : dbapi_class)        (* psycopg2.<k>, raised by the driver *)
| SqlalchemyExc (k : dbapi_class)   (* sqlalchemy.exc.<k> *)
| StaleDataError                    (* sqlalchemy.orm.exc *)
| InvalidRequestError               (* sqlalchemy.exc *)
| HTTPException (code : nat).       (* werkzeug.exceptions, by status code *)

(* an exception object: its class and its __context__ *)
Inductive exn := Exn (cls : exn_class) (context : option exn).

Definition exn_cls (e : exn) : exn_class := let 'Exn c _ := e in c.
Definition exn_context (e : exn) : option exn := let 'Exn _ c := e in c.

(* raising [e] while [handled] is being handled sets e.__context__ *)
Definition with_context (handled e : exn) : exn :=
  Exn (exn_cls e) (Some handled).

(* [cause] is [e] itself or is reachable along e.__context__ *)
Inductive carries (cause : exn) : exn -> Prop :=
| carries_self : carries cause cause
| carries_context c e : carries cause e -> carries cause (Exn c (Some e)).

(* isinstance(e, psycopg2.OperationalError), the class main.py imports *)
Definition is_psycopg2_OperationalError (e : exn) : bool :=
  match exn_cls e with
  | Psycopg2 OperationalError => true
  | _ => false
  end.

(* DBAPIError.instance: SQLAlchemy re-raises a driver error as the
   sqlalchemy.exc class of the same name, the original as its cause, e.g.
   "sqlalchemy.exc.OperationalError: (psycopg2.OperationalError) ..." *)
Definition wrap_dbapi (k : dbapi_class) : exn :=
  Exn (SqlalchemyExc k) (Some (Exn (Psycopg2 k) None)).

Fixpoint dict_get (d : list (string * value)) (key : string) : option value :=
  match d with
  | [] => None
  | (k, v) :: d' => if String.eqb k key then Some v else dict_get d' key
  end.

(* obj[key] for a str key: a dict looks it up (KeyError when absent); a
   list or str wants an integer index and every other JSON value is not
   subscriptable (TypeError) *)
Definition getitem (obj : value) (key : string) : value + exn :=
  match obj with
  | VDict d =>
      match dict_get d key with
      | Some v => inl v
      | None => inr (Exn KeyError None)
      end
  | _ => inr (Exn TypeError None)
  end.

(* bool(x) for the values os.environ.get returns *)
Definition truthy (x : option string) : bool :=
  match x with
  | Some (String _ _) => true
  | _ => false
  end.

(* all(xs) *)
Definition all (xs : list bool) : bool := forallb (fun b => b) xs.

(* f'{x}' for the values os.environ.get returns *)
Definition format (x : option string) : string :=
  match x with
  | Some s => s
  | None => "None"
  end.

End Py.

(* ===================================================================== *)
(* 3. src/db.py                                                          *)
(* ===================================================================== *)

Module Db.
Import Text Py.

(* --- module initialisation (db.py:11-33) ----------------------------- *)

(* os.environ after load_dotenv() *)
Definition environ := string -> option string.

Inductive startup :=
| Raised (e : exn)
| EngineCreated (url : string).

Definition postgres_port : string := "5432".

Definition module_init (env : environ) : startup :=
  let postgres_user := env "POSTGRES_USER" in
  let postgres_password := env "POSTGRES_PASSWORD" in
  let postgres_host := env "POSTGRES_HOST" in
  let postgres_db := env "POSTGRES_DB" in
  if negb (all [truthy postgres_user; truthy postgres_password;
                truthy postgres_db])
  then Raised (Exn ValueError None)
  else EngineCreated
         ("postgresql://" ++ format postgres_user ++ ":"
          ++ format postgres_password ++ "@" ++ format postgres_host ++ ":"
          ++ postgres_port ++ "/" ++ format postgres_db).

(* the variables the check at db.py:23 names *)
Definition required : list string :=
  ["POSTGRES_USER"; "POSTGRES_PASSWORD"; "POSTGRES_DB"].

(* the condition db.py:23 negates *)
Definition configured (env : environ) : bool :=
  all [truthy (env "POSTGRES_USER"); truthy (env "POSTGRES_PASSWORD");
       truthy (env "POSTGRES_DB")].

(* --- the table and the mapped class ---------------------------------- *)

(* a row of blogposts, without its primary key id: the table maps the key
   to the other columns *)
Record Row := mkRow {
  row_title : value;
  row_description : value;
  row_created_at : option Z;
}.

(* a BlogPost instance. [persistent] tells whether the instance has a
   database identity (loaded by a query) or is new (built by the
   constructor); id and created_at are None until the INSERT defaults
   fill them. [committed_title] and [committed_description] are the
   instance's committed_state: the value the attribute was loaded with,
   recorded by the first assignment to the attribute after the load. *)
Record BlogPost := mkBlogPost {
  bp_id : option Uuid.t;
  bp_title : value;
  bp_description : value;
  bp_created_at : option Z;
  persistent : bool;
  committed_title : option value;
  committed_description : option value;
}.

(* BlogPost(title=..., description=...) *)
Definition new_BlogPost (title description : value) : BlogPost :=
  mkBlogPost None title description None false None None.

(* self.title = v *)
Definition set_title (v : value) (self : BlogPost) : BlogPost :=
  mkBlogPost (bp_id self) v (bp_description self) (bp_created_at self)
             (persistent self)
             (match committed_title self with
              | Some old => Some old
              | None => Some (bp_title self)
              end)
             (committed_description self).

(* self.description = v *)
Definition set_description (v : value) (self : BlogPost) : BlogPost :=
  mkBlogPost (bp_id self) (bp_title self) v (bp_created_at self)
             (persistent self)
             (committed_title self)
             (match committed_description self with
              | Some old => Some old
              | None => Some (bp_description self)
              end).

(* the instance a query builds from the row stored under id *)
Definition load (id : Uuid.t) (r : Row) : BlogPost :=
  mkBlogPost (Some id) (row_title r) (row_description r)
             (row_created_at r) true None None.

(* x == y as the unit of work compares an attribute's value with the one
   it was loaded with. A String column loads a str or None; no other JSON
   value equals a str, and only None equals None. *)
Definition compare_values (x y : value) : bool :=
  match x, y with
  | VNone, VNone => true
  | VStr a, VStr b => String.eqb a b
  | _, _ => false
  end.

(* whether an UPDATE writes the column: the attribute was assigned since
   the load, and to a value other than the loaded one *)
Definition column_changed (committed : option value) (v : value) : bool :=
  match committed with
  | Some old => negb (compare_values v old)
  | None => false
  end.

Definition title_changed (self : BlogPost) : bool :=
  column_changed (committed_title self) (bp_title self).

Definition description_changed (self : BlogPost) : bool :=
  column_changed (committed_description self) (bp_description self).

(* the row an UPDATE of the changed columns leaves *)
Definition updated_row (self : BlogPost) (r : Row) : Row :=
  mkRow (if title_changed self then bp_title self else row_title r)
        (if description_changed self then bp_description self
         else row_description r)
        (row_created_at r).

(* BlogPost.to_dict (db.py:68-74) *)
Definition to_dict (self : BlogPost) : value :=
  VDict [ ("id", VStr (match bp_id self with
                       | Some u => Uuid.str u
                       | None => "None"
                       end));
          ("title", bp_title self);
          ("description", bp_description self);
          ("created_at", match bp_created_at self with
                         | Some t => VDatetime t
                         | None => VNone
                         end) ].

(* --- the world: database, session objects, environment --------------- *)

(* a pending operation in a session's unit of work *)
Inductive change :=
| Insert (e : BlogPost)
| Update (e : BlogPost)
| Delete (e : BlogPost).

Inductive event :=
| SessionOpened (sid : nat)
| Queried (sid : nat)
| Committed (sid : nat)
| Rollback (sid : nat)
| SessionClosed (sid : nat)
| Connected
| Executed (sql : string)
| ConnectionClosed.

(* what the program cannot decide: whether the driver fails on the k-th
   database round trip (and with which class), the bytes os.urandom
   returns, and the reading of datetime.now() *)
Record Env := mkEnv {
  driver_fault : nat -> option dbapi_class;
  urandom : nat -> N;
  clock : nat -> Z;
}.

(* a live session object: its unit of work, and whether its transaction
   holds a database connection *)
Record session_state := mkSessionState {
  st_pending : list change;
  st_connected : bool;
}.

Record World := mkWorld {
  table : gmap N Row;
  units : gmap nat session_state;
  next_sid : nat;
  log : list event;
  io_count : nat;
  rand_count : nat;
  clock_count : nat;
  env : Env;
}.

Definition with_table (t : gmap N Row) (w : World) : World :=
  mkWorld t (units w) (next_sid w) (log w) (io_count w) (rand_count w)
          (clock_count w) (env w).
Definition with_units (u : gmap nat session_state) (w : World) : World :=
  mkWorld (table w) u (next_sid w) (log w) (io_count w) (rand_count w)
          (clock_count w) (env w).
Definition with_next_sid (n : nat) (w : World) : World :=
  mkWorld (table w) (units w) n (log w) (io_count w) (rand_count w)
          (clock_count w) (env w).
Definition with_event (e : event) (w : World) : World :=
  mkWorld (table w) (units w) (next_sid w) (log w ++ [e]) (io_count w)
          (rand_count w) (clock_count w) (env w).
Definition with_io_count (n : nat) (w : World) : World :=
  mkWorld (table w) (units w) (next_sid w) (log w) n (rand_count w)
          (clock_count w) (env w).
Definition with_rand_count (n : nat) (w : World) : World :=
  mkWorld (table w) (units w) (next_sid w) (log w) (io_count w) n
          (clock_count w) (env w).
Definition with_clock_count (n : nat) (w : World) : World :=
  mkWorld (table w) (units w) (next_sid w) (log w) (io_count w)
          (rand_count w) n (env w).

(* the sessions opened and not closed since *)
Fixpoint sessions_open (l : list event) (acc : list nat) : list nat :=
  match l with
  | [] => acc
  | SessionOpened sid :: l' => sessions_open l' (acc ++ [sid])
  | SessionClosed sid :: l' =>
      sessions_open l' (filter (fun s => s ≠ sid) acc)
  | _ :: l' => sessions_open l' acc
  end.

Definition open_sessions (w : World) : list nat := sessions_open (log w) [].

(* --- computations: state passing with Python exceptions -------------- *)

Inductive outcome (A : Type) :=
| Return (a : A)
| Raise (e : exn).
Arguments Return {A} a.
Arguments Raise {A} e.

Definition M (A : Type) : Type := World -> outcome A * World.

Definition ret {A} (a : A) : M A := fun w => (Return a, w).
Definition raise {A} (e : exn) : M A := fun w => (Raise e, w).
Definition bind {A B} (m : M A) (k : A -> M B) : M B :=
  fun w =>
    match m w with
    | (Return a, w') => k a w'
    | (Raise e, w') => (Raise e, w')
    end.

Declare Scope py_scope.
Delimit Scope py_scope with py.
Notation "x <- m ;; k" := (bind m (fun x => k))
  (at level 100, m at next level, k at level 200, right associativity)
  : py_scope.
Notation "m ;; k" := (bind m (fun _ => k))
  (at level 100, k at level 200, right associativity) : py_scope.
Open Scope py_scope.

(* try: body / except Exception as e: handler e *)
Definition try_except {A} (body : M A) (handler : exn -> M A) : M A :=
  fun w =>
    match body w with
    | (Return a, w') => (Return a, w')
    | (Raise e, w') => handler e w'
    end.

(* code running inside "except ... as e:": what it raises gets e as its
   __context__ *)
Definition handling {A} (e : exn) (m : M A) : M A :=
  fun w =>
    match m w with
    | (Return a, w') => (Return a, w')
    | (Raise x, w') => (Raise (with_context e x), w')
    end.

(* try: body / finally: cleanup *)
Definition try_finally {A} (body : M A) (cleanup : M unit) : M A :=
  fun w =>
    match body w with
    | (r, w') =>
        match cleanup w' with
        | (Return _, w'') => (r, w'')
        | (Raise x, w'') => (Raise x, w'')
        end
    end.

Definition emit (e : event) : M unit := fun w => (Return tt, with_event e w).

(* one round trip to the database server through the engine; a driver
   error reaches the caller in SQLAlchemy's wrapping *)
Definition round_trip : M unit :=
  fun w =>
    let k := io_count w in
    let w' := with_io_count (S k) w in
    match driver_fault (env w) k with
    | Some c => (Raise (wrap_dbapi c), w')
    | None => (Return tt, w')
    end.

(* the column default uuid4 *)
Definition default_id : M Uuid.t :=
  fun w =>
    let k := rand_count w in
    (Return (Uuid.uuid4 (urandom (env w) k)), with_rand_count (S k) w).

(* the column default datetime.now *)
Definition default_created_at : M Z :=
  fun w =>
    let k := clock_count w in
    (Return (clock (env w) k), with_clock_count (S k) w).

(* --- sqlalchemy.orm.Session ------------------------------------------ *)

(* Session(): a new session object with an empty unit of work and no
   connection *)
Definition Session : M nat :=
  fun w =>
    let sid := next_sid w in
    (Return sid,
     with_event (SessionOpened sid)
       (with_next_sid (S sid)
          (with_units (<[sid := mkSessionState [] false]> (units w)) w))).

Definition pending (sid : nat) (w : World) : list change :=
  match units w !! sid with
  | Some s => st_pending s
  | None => []
  end.

Definition connected (sid : nat) (w : World) : bool :=
  match units w !! sid with
  | Some s => st_connected s
  | None => false
  end.

Definition set_pending (sid : nat) (cs : list change) : M unit :=
  fun w =>
    (Return tt,
     with_units (<[sid := mkSessionState cs (connected sid w)]> (units w)) w).

Definition set_connected (sid : nat) (b : bool) : M unit :=
  fun w =>
    (Return tt,
     with_units (<[sid := mkSessionState (pending sid w) b]> (units w)) w).

(* the session's connection for a statement: a round trip to the server,
   after which the session's transaction holds the connection *)
Definition session_connection (sid : nat) : M unit :=
  round_trip ;;
  set_connected sid true.

(* session.add(obj): a new instance becomes pending (INSERT at flush), a
   detached one is attached again (UPDATE of its mapped columns) *)
Definition session_add (sid : nat) (obj : BlogPost) : M unit :=
  fun w =>
    set_pending sid
      (pending sid w ++ [if persistent obj then Update obj else Insert obj]) w.

(* session.delete(obj): the instance must be persisted *)
Definition session_delete (sid : nat) (obj : BlogPost) : M unit :=
  fun w =>
    if persistent obj
    then set_pending sid (pending sid w ++ [Delete obj]) w
    else (Raise (Exn InvalidRequestError None), w).

(* the driver adapting the value bound to a String column, before the
   statement is sent: a dict has no adapter (psycopg2.ProgrammingError,
   "can't adapt type 'dict'", which SQLAlchemy wraps), a str holding a NUL
   character is refused with ValueError, and a list is adapted element by
   element. A str without NUL and None are sent as they are. What the
   server makes of a number, a boolean or a list sent for a text column
   (a cast to text) is not modelled: the row keeps the value as sent, and
   the statements below about stored contents are about str and None. *)
Fixpoint adapt (v : value) : option exn :=
  match v with
  | VDict _ => Some (wrap_dbapi ProgrammingError)
  | VStr s => if has_char is_nul s then Some (Exn ValueError None) else None
  | VList l =>
      (fix adapt_all (l : list value) : option exn :=
         match l with
         | [] => None
         | x :: l' =>
             match adapt x with
             | Some e => Some e
             | None => adapt_all l'
             end
         end) l
  | _ => None
  end.

Definition bind_param (v : value) : M unit :=
  match adapt v with
  | Some e => raise e
  | None => ret tt
  end.

(* one statement of the flush, on the transaction's view of the table.
   An INSERT binds every column; an UPDATE binds the changed columns only
   and is not emitted at all when no column changed. *)
Definition apply_change (c : change) (t : gmap N Row) : M (gmap N Row) :=
  match c with
  | Insert e =>
      u <- match bp_id e with
           | Some u => ret u
           | None => default_id
           end ;;
      ts <- match bp_created_at e with
            | Some ts => ret ts
            | None => default_created_at
            end ;;
      bind_param (bp_title e) ;;
      bind_param (bp_description e) ;;
      match t !! u with
      | Some _ => raise (wrap_dbapi IntegrityError)
      | None =>
          ret (<[u := mkRow (bp_title e) (bp_description e) (Some ts)]> t)
      end
  | Update e =>
      match bp_id e with
      | Some u =>
          if title_changed e || description_changed e
          then
            (if title_changed e then bind_param (bp_title e) else ret tt) ;;
            (if description_changed e then bind_param (bp_description e)
             else ret tt) ;;
            match t !! u with
            | Some r => ret (<[u := updated_row e r]> t)
            | None => raise (Exn StaleDataError None)
            end
          else ret t
      | None => raise (Exn InvalidRequestError None)
      end
  | Delete e =>
      match bp_id e with
      | Some u => ret (delete u t)
      | None => raise (Exn InvalidRequestError None)
      end
  end.

Fixpoint flush (cs : list change) (t : gmap N Row) : M (gmap N Row) :=
  match cs with
  | [] => ret t
  | c :: cs' => t' <- apply_change c t ;; flush cs' t'
  end.

(* session.commit(): obtain the connection, flush the unit of work and
   commit; the table changes only when every statement and the COMMIT went
   through, and the connection is released *)
Definition session_commit (sid : nat) : M unit :=
  fun w =>
    (session_connection sid ;;
     t' <- flush (pending sid w) (table w) ;;
     (fun w' => (Return tt, with_table t' w')) ;;
     set_pending sid [] ;;
     set_connected sid false ;;
     emit (Committed sid)) w.

(* session.rollback(): drop the unit of work; a ROLLBACK goes to the server
   only when the session's transaction holds a connection, which it does
   not after a failed connect *)
Definition session_rollback (sid : nat) : M unit :=
  emit (Rollback sid) ;;
  set_pending sid [] ;;
  (fun w =>
     if connected sid w
     then (round_trip ;; set_connected sid false) w
     else (Return tt, w)).

(* session.close(): release the connection, forget every instance *)
Definition session_close (sid : nat) : M unit :=
  fun w =>
    (Return tt, with_event (SessionClosed sid)
                  (with_units (delete sid (units w)) w)).

(* the identity handed to Query.get: what the URL converter produced *)
Inductive ident :=
| IdUuid (u : Uuid.t)
| IdInt (n : N).

(* session.query(BlogPost).all() *)
Definition query_all (sid : nat) : M (list BlogPost) :=
  emit (Queried sid) ;;
  session_connection sid ;;
  (fun w => (Return (uncurry load <$> map_to_list (table w)), w)).

(* session.query(BlogPost).get(ident). The key column is a UUID: the
   server rejects its comparison with an integer (operator does not exist:
   uuid = integer), which reaches the caller as
   sqlalchemy.exc.ProgrammingError. *)
Definition query_get (sid : nat) (i : ident) : M (option BlogPost) :=
  emit (Queried sid) ;;
  session_connection sid ;;
  match i with
  | IdUuid u => fun w => (Return (load u <$> (table w !! u)), w)
  | IdInt _ => raise (wrap_dbapi ProgrammingError)
  end.

(* --- BlogPost.save, BlogPost.delete (db.py:46-66) -------------------- *)

Definition save (self : BlogPost) : M unit :=
  session <- Session ;;
  try_finally
    (try_except
       (session_add session self ;;
        session_commit session)
       (fun e =>
          handling e (session_rollback session) ;;
          raise e))
    (session_close session).

Definition delete (self : BlogPost) : M unit :=
  session <- Session ;;
  try_finally
    (try_except
       (session_delete session self ;;
        session_commit session)
       (fun e =>
          handling e (session_rollback session) ;;
          raise e))
    (session_close session).

(* --- the engine, as the healthcheck uses it -------------------------- *)

(* with engine.connect() as conn: conn.execute(text(sql)) *)
Definition engine_connect_execute (sql : string) : M unit :=
  round_trip ;;
  emit Connected ;;
  try_finally
    (round_trip ;; emit (Executed sql))
    (emit ConnectionClosed).

End Db.

(* ===================================================================== *)
(* 4. src/main.py                                                        *)
(* ===================================================================== *)

Module Main.
Import Text Py Db.

Inductive payload :=
| NotJson                 (* Content-Type is not JSON *)
| Malformed               (* JSON content type, body does not parse *)
| Json (v : value).

(* method is request.method, which Werkzeug gives in upper case *)
Record request := mkRequest {
  method : string;
  path : string;
  body : payload;
}.

Record response := mkResponse {
  status : nat;
  data : value;
}.

(* flask.abort(code), ServiceUnavailable(), InternalServerError() *)
Definition abort {A} (code : nat) : M A := raise (Exn (HTTPException code) None).

(* request.json: 415 without a JSON content type, 400 on a parse error *)
Definition request_json (req : request) : M value :=
  match body req with
  | Json v => ret v
  | NotJson => abort 415
  | Malformed => abort 400
  end.

Definition subscript (obj : value) (key : string) : M value :=
  match getitem obj key with
  | inl v => ret v
  | inr e => raise e
  end.

(* a view's "return jsonify(x), code" *)
Definition jsonify (v : value) (code : nat) : M response :=
  ret (mkResponse code v).

(* --- the view functions ---------------------------------------------- *)

(* main.py:31-36, the two except clauses of the healthcheck:
     except OperationalError: raise ServiceUnavailable()
     except Exception as e:   ...; raise InternalServerError() *)
Definition healthcheck_except (e : exn) : M unit :=
  if is_psycopg2_OperationalError e
  then handling e (abort 503)
  else handling e (abort 500).

(* main.py:18-37 *)
Definition perform_healthcheck : M response :=
  try_except (engine_connect_execute "SELECT 1") healthcheck_except ;;
  jsonify (VDict [("status", VStr "ok");
                  ("message",
                   VStr "Server and database are running smoothly")]) 200.

(* main.py:41-60 *)
Definition get_items : M response :=
  try_except
    (session <- Session ;;
     items <- query_all session ;;
     session_close session ;;
     jsonify (VList (to_dict <$> items)) 200)
    (fun e => handling e (abort 500)).

(* main.py:64-94 *)
Definition get_item (item_id : Uuid.t) : M response :=
  try_except
    (session <- Session ;;
     item <- query_get session (IdUuid item_id) ;;
     session_close session ;;
     match item with
     | None => jsonify (VDict [("error", VStr "Item not found")]) 404
     | Some item => jsonify (to_dict item) 200
     end)
    (fun e => handling e (abort 500)).

(* main.py:98-129 *)
Definition create_item (req : request) : M response :=
  new_item <- request_json req ;;
  try_except
    (name <- subscript new_item "name" ;;
     description <- subscript new_item "description" ;;
     let item := new_BlogPost name description in
     save item ;;
     jsonify (VDict [("message", VStr "Item created successfully")]) 201)
    (fun e => handling e (abort 500)).

(* main.py:133-177 *)
Definition update_item (item_id : Uuid.t) (req : request) : M response :=
  updated_item <- request_json req ;;
  try_except
    (session <- Session ;;
     item <- query_get session (IdUuid item_id) ;;
     session_close session ;;
     match item with
     | None => jsonify (VDict [("error", VStr "Item not found")]) 404
     | Some item =>
         name <- subscript updated_item "name" ;;
         let item := set_title name item in
         description <- subscript updated_item "description" ;;
         let item := set_description description item in
         save item ;;
         jsonify (VDict [("message", VStr "Item updated successfully")]) 200
     end)
    (fun e => handling e (abort 500)).

(* main.py:181-212 *)
Definition delete_item (item_id : N) : M response :=
  try_except
    (session <- Session ;;
     item <- query_get session (IdInt item_id) ;;
     session_close session ;;
     match item with
     | None => jsonify (VDict [("error", VStr "Item not found")]) 404
     | Some item =>
         Db.delete item ;;
         jsonify (VDict [("message", VStr "Item deleted successfully")]) 200
     end)
    (fun e => handling e (abort 500)).

(* --- the URL map (the @app.route decorators) ------------------------- *)

Inductive converter :=
| IntegerConverter        (* <int:...>,  regex \d+ *)
| UUIDConverter.          (* <uuid:...>, regex of five hexadecimal groups *)

(* n hexadecimal digits, then the rest *)
Fixpoint take_hex (n : nat) (s : string) : option string :=
  match n with
  | O => Some s
  | S n' =>
      match s with
      | String c s' => if is_hex c then take_hex n' s' else None
      | EmptyString => None
      end
  end.

(* hexadecimal groups of the given sizes, hyphens between them, then the
   end of the string *)
Fixpoint match_groups (sizes : list nat) (s : string) : bool :=
  match sizes with
  | [] => false
  | n :: sizes' =>
      match take_hex n s with
      | None => false
      | Some rest =>
          match sizes' with
          | [] => match rest with EmptyString => true | _ => false end
          | _ =>
              match rest with
              | String c rest' => is_hyphen c && match_groups sizes' rest'
              | EmptyString => false
              end
          end
      end
  end.

(* the converter's regex, anchored at both ends of the path segment *)
Definition regex_match (c : converter) (seg : string) : bool :=
  match c with
  | IntegerConverter =>
      match seg with
      | EmptyString => false
      | _ => all_chars is_digit seg
      end
  | UUIDConverter => match_groups [8; 4; 4; 4; 12]%nat seg
  end.

(* int(s) on a string of decimal digits *)
Fixpoint parse_dec_from (acc : N) (s : string) : N :=
  match s with
  | EmptyString => acc
  | String c s' => parse_dec_from (10 * acc + (N_of_ascii c - 48)) s'
  end.

(* sys.get_int_max_str_digits(): int(s) raises ValueError on a string of
   more digits *)
Definition int_max_str_digits : N := 4300.

(* converter.to_python: int(seg) or uuid.UUID(seg); None stands for the
   ValueError either of them raises *)
Definition to_python (c : converter) (seg : string) : option ident :=
  match c with
  | IntegerConverter =>
      if (int_max_str_digits <? N.of_nat (String.length seg))%N
      then None
      else Some (IdInt (parse_dec_from 0 seg))
  | UUIDConverter => IdUuid <$> Uuid.of_string seg
  end.

Inductive part :=
| Static (s : string)
| Dynamic (c : converter).

Inductive endpoint :=
| ep_perform_healthcheck
| ep_get_items
| ep_get_item
| ep_create_item
| ep_update_item
| ep_delete_item.

Record rule := mkRule {
  rule_parts : list part;          (* the segments after the leading "/" *)
  rule_methods : list string;
  rule_endpoint : endpoint;
}.

(* the rules of the program's own views, in registration order; Flask adds
   HEAD to a GET rule and OPTIONS to every rule. Flask(__name__) and
   Swagger(app) at main.py:13-14 register further GET rules of their own
   (/static/<path:filename>, /apidocs/, /apispec_1.json,
   /flasgger_static/<path:filename>); their views are library code that
   serves files and the API description without using the database. They
   are not part of this map: a path under one of those prefixes is outside
   what the statements below say about responses. *)
Definition url_map : list rule :=
  [ mkRule [Static "healthcheck"] ["GET"; "HEAD"; "OPTIONS"]
           ep_perform_healthcheck;
    mkRule [Static "items"] ["GET"; "HEAD"; "OPTIONS"] ep_get_items;
    mkRule [Static "items"; Dynamic UUIDConverter] ["GET"; "HEAD"; "OPTIONS"]
           ep_get_item;
    mkRule [Static "items"] ["POST"; "OPTIONS"] ep_create_item;
    mkRule [Static "items"; Dynamic UUIDConverter] ["PUT"; "OPTIONS"]
           ep_update_item;
    mkRule [Static "items"; Dynamic IntegerConverter] ["DELETE"; "OPTIONS"]
           ep_delete_item ].

Fixpoint match_parts (ps : list part) (segs : list string)
  : option (list (converter * string)) :=
  match ps, segs with
  | [], [] => Some []
  | Static s :: ps', seg :: segs' =>
      if String.eqb s seg then match_parts ps' segs' else None
  | Dynamic c :: ps', seg :: segs' =>
      if regex_match c seg
      then cons (c, seg) <$> match_parts ps' segs'
      else None
  | _, _ => None
  end.

Definition match_rule (r : rule) (parts : list string)
  : option (list (converter * string)) :=
  match parts with
  | EmptyString :: segs => match_parts (rule_parts r) segs
  | _ => None
  end.

Definition allows (r : rule) (m : string) : bool :=
  existsb (String.eqb m) (rule_methods r).

(* the matcher's walk: the first rule whose path and method both match;
   the methods of rules matching the path alone are remembered *)
Fixpoint find_rule (rules : list rule) (parts : list string) (m : string)
    (have_match_for : list string)
  : (rule * list (converter * string)) + list string :=
  match rules with
  | [] => inr have_match_for
  | r :: rules' =>
      match match_rule r parts with
      | Some values =>
          if allows r m then inl (r, values)
          else find_rule rules' parts m (have_match_for ++ rule_methods r)
      | None => find_rule rules' parts m have_match_for
      end
  end.

Inductive routing :=
| Matched (ep : endpoint) (view_args : list ident)
| RequestRedirect (new_path : string)
| MethodNotAllowed
| NotFound
| ConversionError.

Fixpoint convert_all (values : list (converter * string))
  : option (list ident) :=
  match values with
  | [] => Some []
  | (c, seg) :: values' =>
      match to_python c seg, convert_all values' with
      | Some i, Some is' => Some (i :: is')
      | _, _ => None
      end
  end.

(* MapAdapter.match with the map's default merge_slashes=True *)
Definition adapter_match (path_info m : string) : routing :=
  let path_part :=
    match path_info with
    | EmptyString => EmptyString
    | _ => "/" ++ lstrip_slash path_info
    end in
  match find_rule url_map (split_slash path_part) m [] with
  | inl (r, values) =>
      match convert_all values with
      | Some args => Matched (rule_endpoint r) args
      | None => ConversionError
      end
  | inr have_match_for =>
      let merged := merge_slashes path_part in
      match find_rule url_map (split_slash merged) m have_match_for with
      | inl _ => RequestRedirect merged
      | inr [] => NotFound
      | inr (_ :: _) => MethodNotAllowed
      end
  end.

(* "/items/<seg>".split("/") for a segment without a slash *)
Definition item_parts (seg : string) : list string := [EmptyString; "items"; seg].

(* the converter of an item rule, /items/<converter:item_id> *)
Definition item_converter (r : rule) : option converter :=
  match rule_parts r with
  | [Static s; Dynamic c] => if String.eqb s "items" then Some c else None
  | _ => None
  end.

(* the segment parses as the id of some item route that serves method m *)
Definition valid_item_id (m seg : string) : bool :=
  existsb (fun r =>
             allows r m &&
             match item_converter r with
             | Some c => regex_match c seg
             | None => false
             end)
          url_map.

(* --- Flask.dispatch_request and Flask.wsgi_app ----------------------- *)

Definition call_view (ep : endpoint) (args : list ident) (req : request)
  : M response :=
  match ep, args with
  | ep_perform_healthcheck, [] => perform_healthcheck
  | ep_get_items, [] => get_items
  | ep_get_item, [IdUuid item_id] => get_item item_id
  | ep_create_item, [] => create_item req
  | ep_update_item, [IdUuid item_id] => update_item item_id req
  | ep_delete_item, [IdInt item_id] => delete_item item_id
  | _, _ => raise (Exn TypeError None)
  end.

Definition dispatch_request (req : request) : M response :=
  match adapter_match (path req) (method req) with
  | RequestRedirect _ => abort 308
  | MethodNotAllowed => abort 405
  | NotFound => abort 404
  | ConversionError => raise (Exn ValueError None)
  | Matched ep args =>
      if String.eqb (method req) "OPTIONS"
      then ret (mkResponse 200 VNone)
      else call_view ep args req
  end.

(* an HTTPException becomes the response of its code, anything else that
   escapes a view a 500 *)
Definition wsgi_app (req : request) (w : World) : response * World :=
  match dispatch_request req w with
  | (Return r, w') => (r, w')
  | (Raise (Exn (HTTPException code) _), w') => (mkResponse code VNone, w')
  | (Raise _, w') => (mkResponse 500 VNone, w')
  end.

(* a create request, or an update request addressed to a stored row *)
Inductive write_request (w : World) : request -> Prop :=
| write_create b :
    write_request w (mkRequest "POST" "/items" b)
| write_update u r b :
    Uuid.in_range u ->
    table w !! u = Some r ->
    write_request w (mkRequest "PUT" ("/items/" ++ Uuid.str u) b).

End Main.

(* ===================================================================== *)
(* 5. Concrete environments and worlds                                   *)
(* ===================================================================== *)

Module Scenario.
Import Py Db Main.

(* a database that answers every round trip *)
Definition reliable : Env :=
  mkEnv (fun _ => None)
        (fun k => (N.of_nat k * 1000003 + 12345678901234567890123456789)%N)
        (fun k => Z.of_nat k).

(* a database server that cannot be reached: the driver fails every round
   trip with psycopg2.OperationalError *)
Definition unreachable : Env :=
  mkEnv (fun _ => Some OperationalError) (fun _ => 5%N) (fun k => Z.of_nat k).

Definition empty_world (e : Env) : World :=
  mkWorld ∅ ∅ 0 [] 0 0 0 e.

Definition first_id : Uuid.t := Uuid.uuid4 (urandom reliable 0).

Definition post_AB : request :=
  mkRequest "POST" "/items"
            (Json (VDict [("name", VStr "A"); ("description", VStr "B")])).

(* the world after one successful create *)
Definition one_post : World := snd (wsgi_app post_AB (empty_world reliable)).

(* every required variable is set, POSTGRES_USER to the empty string *)
Definition env_empty_user : environ :=
  fun k => if String.eqb k "POSTGRES_USER" then Some EmptyString else Some "x".

Definition env_complete : environ :=
  fun k => if String.eqb k "POSTGRES_HOST" then None else Some "x".

End Scenario.

(* ===================================================================== *)
(* 5b. Predicates the statements below use                               *)
(* ===================================================================== *)

Module Frame.
Import Text Py Db Main.

(* every session the events open is closed by a later event *)
Definition balanced (l : list event) : Prop := sessions_open l [] = [].

(* every primary key is a UUID's integer *)
Definition keys_in_range (t : gmap N Row) : Prop :=
  forall u r, t !! u = Some r -> Uuid.in_range u.

(* what one request may do to the table: nothing, insert a row under an
   unused UUID, or rewrite a stored row keeping its created_at *)
Inductive table_effect (t : gmap N Row) : gmap N Row -> Prop :=
| effect_none : table_effect t t
| effect_insert u r :
    Uuid.in_range u -> t !! u = None -> table_effect t (<[u := r]> t)
| effect_rewrite u r r' :
    t !! u = Some r -> row_created_at r' = row_created_at r ->
    table_effect t (<[u := r']> t).

(* the world after the application served the requests one after another *)
Definition serve_all (reqs : list request) (w : World) : World :=
  fold_left (fun w req => snd (wsgi_app req w)) reqs w.

(* events that neither open nor close a session *)
Definition session_neutral (e : event) : Prop :=
  match e with
  | SessionOpened _ | SessionClosed _ => False
  | _ => True
  end.

(* what a request may add to the log: events that leave no session open,
   or the opening of one session and its query, the latter only when
   [failed] holds *)
Definition closes_or_leaks (w w' : World) (failed : Prop) : Prop :=
  exists l,
    log w' = (log w ++ l)%list
    /\ (balanced l
        \/ (l = [SessionOpened (next_sid w); Queried (next_sid w)]
            /\ failed)).

(* the view raised what abort(500) raises *)
Definition aborted_500 (o : outcome response) : Prop :=
  exists ctx, o = Raise (Exn (HTTPException 500) ctx).

(* the arguments a view is written for: a UUID for get_item and
   update_item, an integer for delete_item, none for the others *)
Definition view_args_ok (ep : endpoint) (args : list ident) : Prop :=
  match ep, args with
  | ep_get_item, [IdUuid u] | ep_update_item, [IdUuid u] => Uuid.in_range u
  | ep_delete_item, [IdInt _] => True
  | ep_perform_healthcheck, [] | ep_get_items, [] | ep_create_item, [] => True
  | _, _ => False
  end.

(* the JSON values that are not objects *)
Definition not_an_object (v : value) : Prop :=
  match v with
  | VDict _ => False
  | _ => True
  end.


(* the values a String column stores as they are: None, or a str without
   a NUL character *)
Definition storable (v : value) : bool :=
  match v with
  | VNone => true
  | VStr s => negb (has_char is_nul s)
  | _ => false
  end.

End Frame.

(* ===================================================================== *)
(* 6. Properties                                                         *)
(* ===================================================================== *)

#[local] Arguments String.append : simpl nomatch.
#[local] Arguments Db.compare_values : simpl never.

Module TextFacts.
Import Text.

Lemma length_append (s1 s2 : string) :
  String.length (s1 ++ s2) = (String.length s1 + String.length s2)%nat.
Proof. induction s1 as [|c s1 IH]; simpl; [done | by rewrite IH]. Qed.

Lemma all_chars_append p (s1 s2 : string) :
  all_chars p (s1 ++ s2) = all_chars p s1 && all_chars p s2.
Proof.
  induction s1 as [|c s1 IH]; simpl; [done |].
  by rewrite IH, andb_assoc.
Qed.

Lemma has_char_append p (s1 s2 : string) :
  has_char p (s1 ++ s2) = has_char p s1 || has_char p s2.
Proof.
  induction s1 as [|c s1 IH]; simpl; [done |].
  by rewrite IH, orb_assoc.
Qed.

Lemma append_nil_r (s : string) : s ++ EmptyString = s.
Proof. induction s as [|c s IH]; simpl; [done | by f_equal]. Qed.

(* --- hexadecimal digits ---------------------------------------------- *)

Lemma below_16 (d : N) :
  (d < 16)%N ->
  d ∈ [0; 1; 2; 3; 4; 5; 6; 7; 8; 9; 10; 11; 12; 13; 14; 15]%N.
Proof.
  intros H. repeat setoid_rewrite elem_of_cons. lia.
Qed.

Lemma hex_value_hex_char (d : N) : (d < 16)%N -> hex_value (hex_char d) = Some d.
Proof.
  intros H%below_16.
  repeat (apply elem_of_cons in H as [-> | H]; [reflexivity |]).
  by apply elem_of_nil in H.
Qed.

Lemma is_hex_hex_char (d : N) : (d < 16)%N -> is_hex (hex_char d) = true.
Proof.
  intros H%below_16.
  repeat (apply elem_of_cons in H as [-> | H]; [reflexivity |]).
  by apply elem_of_nil in H.
Qed.

Lemma is_hex_not_hyphen (c : ascii) : is_hex c = true -> is_hyphen c = false.
Proof. destruct c as [[] [] [] [] [] [] [] []]; vm_compute; congruence. Qed.

Lemma is_hex_not_slash (c : ascii) : is_hex c = true -> is_slash c = false.
Proof. destruct c as [[] [] [] [] [] [] [] []]; vm_compute; congruence. Qed.

Lemma length_hex_digits (k : nat) (n : N) : String.length (hex_digits k n) = k.
Proof.
  revert n; induction k as [|k IH]; intros n; simpl; [done |].
  rewrite length_append, IH. simpl. lia.
Qed.

Lemma all_hex_hex_digits (k : nat) (n : N) :
  all_chars is_hex (hex_digits k n) = true.
Proof.
  revert n; induction k as [|k IH]; intros n; simpl; [done |].
  rewrite all_chars_append, IH. simpl.
  rewrite is_hex_hex_char; [done |].
  apply N.mod_lt. lia.
Qed.

Lemma parse_hex_from_append (acc : N) (s1 s2 : string) :
  parse_hex_from acc (s1 ++ s2) =
  match parse_hex_from acc s1 with
  | Some a => parse_hex_from a s2
  | None => None
  end.
Proof.
  revert acc; induction s1 as [|c s1 IH]; intros acc; simpl; [done |].
  destruct (hex_value c); [apply IH | done].
Qed.

Lemma parse_hex_from_hex_digits (k : nat) (acc n : N) :
  parse_hex_from acc (hex_digits k n)
  = Some (acc * 16 ^ N.of_nat k + n mod 16 ^ N.of_nat k)%N.
Proof.
  revert acc n; induction k as [|k IH]; intros acc n.
  - simpl. f_equal. rewrite N.mod_1_r. lia.
  - cbn [hex_digits]. rewrite parse_hex_from_append, IH. cbn [parse_hex_from].
    rewrite hex_value_hex_char by (apply N.mod_lt; lia).
    f_equal. rewrite Nat2N.inj_succ, N.pow_succ_r'.
    rewrite N.Div0.mod_mul_r. lia.
Qed.

(* --- slices ----------------------------------------------------------- *)

Lemma length_substring (s : string) (n m : nat) :
  (n + m <= String.length s)%nat -> String.length (substring n m s) = m.
Proof.
  revert n m; induction s as [|c s IH]; intros [|n] [|m]; simpl; intros H;
    try done; try lia.
  - by rewrite (IH 0%nat m) by (simpl; lia).
  - apply (IH n 0%nat). lia.
  - apply (IH n (S m)). lia.
Qed.

Lemma all_chars_substring p (s : string) (n m : nat) :
  all_chars p s = true -> all_chars p (substring n m s) = true.
Proof.
  revert n m; induction s as [|c s IH]; intros [|n] [|m]; simpl; try done.
  - intros [-> Hs]%andb_prop. by rewrite IH.
  - intros [_ Hs]%andb_prop. by apply IH.
  - intros [_ Hs]%andb_prop. by apply IH.
Qed.

Lemma substring_join (s : string) (n m k : nat) :
  substring n m s ++ substring (n + m) k s = substring n (m + k) s.
Proof.
  revert n m; induction s as [|c s IH]; intros [|n] [|m]; simpl; try done.
  f_equal. apply (IH 0%nat m).
Qed.

Lemma substring_whole (s : string) : substring 0 (String.length s) s = s.
Proof. induction s as [|c s IH]; simpl; [done | by f_equal]. Qed.

Lemma remove_hyphens_append (s1 s2 : string) :
  remove_hyphens (s1 ++ s2) = remove_hyphens s1 ++ remove_hyphens s2.
Proof.
  induction s1 as [|c s1 IH]; simpl; [done |].
  destruct (is_hyphen c); simpl; by rewrite IH.
Qed.

Lemma remove_hyphens_hex (s : string) :
  all_chars is_hex s = true -> remove_hyphens s = s.
Proof.
  induction s as [|c s IH]; simpl; [done |].
  intros [Hc Hs]%andb_prop. rewrite (is_hex_not_hyphen c Hc). by f_equal; auto.
Qed.

Lemma has_slash_hex (s : string) :
  all_chars is_hex s = true -> has_char is_slash s = false.
Proof.
  induction s as [|c s IH]; simpl; [done |].
  intros [Hc Hs]%andb_prop. by rewrite (is_hex_not_slash c Hc), IH.
Qed.

End TextFacts.

Module UuidFacts.
Import Text TextFacts Main.

Lemma length_hex32 u : String.length (Uuid.hex32 u) = 32%nat.
Proof. apply length_hex_digits. Qed.

Lemma all_hex_hex32 u : all_chars is_hex (Uuid.hex32 u) = true.
Proof. apply all_hex_hex_digits. Qed.

Lemma hex32_groups u :
  let h := Uuid.hex32 u in
  substring 0 8 h ++ substring 8 4 h ++ substring 12 4 h ++ substring 16 4 h
  ++ substring 20 12 h = h.
Proof.
  intros h.
  pose proof (substring_join h 16 4 12) as H1.
  pose proof (substring_join h 12 4 16) as H2.
  pose proof (substring_join h 8 4 20) as H3.
  pose proof (substring_join h 0 8 24) as H4.
  simpl Nat.add in H1, H2, H3, H4.
  rewrite H1, H2, H3, H4. rewrite <- (length_hex32 u).
  apply substring_whole.
Qed.

Lemma group_hex u n m : all_chars is_hex (substring n m (Uuid.hex32 u)) = true.
Proof. apply all_chars_substring, all_hex_hex32. Qed.

Lemma group_length u n m :
  (n + m <= 32)%nat -> String.length (substring n m (Uuid.hex32 u)) = m.
Proof. intros H. apply length_substring. by rewrite length_hex32. Qed.

Lemma remove_hyphens_str u : remove_hyphens (Uuid.str u) = Uuid.hex32 u.
Proof.
  unfold Uuid.str. cbv zeta.
  rewrite !remove_hyphens_append. 
  rewrite !(remove_hyphens_hex _ (group_hex u _ _)).
  change (remove_hyphens "-") with EmptyString. simpl String.append.
  apply hex32_groups.
Qed.

Lemma of_string_str u : Uuid.in_range u -> Uuid.of_string (Uuid.str u) = Some u.
Proof.
  intros Hu. unfold Uuid.of_string. rewrite remove_hyphens_str, length_hex32.
  simpl Nat.eqb. cbv iota.
  unfold parse_hex. 
  destruct (Uuid.hex32 u) eqn:E.
  { pose proof (length_hex32 u) as HL. by rewrite E in HL. }
  rewrite <- E. unfold Uuid.hex32. rewrite parse_hex_from_hex_digits.
  f_equal. rewrite N.mul_0_l, N.add_0_l. apply N.mod_small. exact Hu.
Qed.

Lemma take_hex_append (a rest : string) :
  all_chars is_hex a = true -> take_hex (String.length a) (a ++ rest) = Some rest.
Proof.
  induction a as [|c a IH]; simpl; [done |].
  intros [-> Ha]%andb_prop. by apply IH.
Qed.

Lemma match_groups_cons (g rest : string) (n' : nat) (sizes : list nat) :
  all_chars is_hex g = true ->
  match_groups (String.length g :: n' :: sizes) (g ++ "-" ++ rest)
  = match_groups (n' :: sizes) rest.
Proof.
  intros Hg. cbn [match_groups]. by rewrite take_hex_append.
Qed.

Lemma match_groups_last (g : string) :
  all_chars is_hex g = true -> match_groups [String.length g] g = true.
Proof.
  intros Hg. cbn [match_groups].
  rewrite <- (append_nil_r g) at 2. by rewrite take_hex_append.
Qed.

Lemma uuid_regex_str u : regex_match UUIDConverter (Uuid.str u) = true.
Proof.
  unfold regex_match, Uuid.str. cbv zeta.
  pose proof (group_length u 0 8) as L1. pose proof (group_length u 8 4) as L2.
  pose proof (group_length u 12 4) as L3. pose proof (group_length u 16 4) as L4.
  pose proof (group_length u 20 12) as L5.
  rewrite <- L1 at 1 by lia. rewrite match_groups_cons by apply group_hex.
  rewrite <- L2 at 1 by lia. rewrite match_groups_cons by apply group_hex.
  rewrite <- L3 at 1 by lia. rewrite match_groups_cons by apply group_hex.
  rewrite <- L4 at 1 by lia. rewrite match_groups_cons by apply group_hex.
  rewrite <- L5 at 1 by lia. apply match_groups_last, group_hex.
Qed.

Lemma int_regex_str u : regex_match IntegerConverter (Uuid.str u) = false.
Proof.
  assert (H : all_chars is_digit (Uuid.str u) = false).
  { unfold Uuid.str. cbv zeta. rewrite all_chars_append.
    apply andb_false_intro2. reflexivity. }
  unfold regex_match. by destruct (Uuid.str u).
Qed.

Lemma no_slash_str u : has_char is_slash (Uuid.str u) = false.
Proof.
  unfold Uuid.str. cbv zeta. rewrite !has_char_append.
  rewrite !(has_slash_hex _ (group_hex u _ _)). reflexivity.
Qed.

(* --- uuid4 stays within 128 bits -------------------------------------- *)

Lemma in_range_shiftr (x : N) : Uuid.in_range x <-> N.shiftr x 128 = 0%N.
Proof.
  unfold Uuid.in_range. rewrite N.shiftr_div_pow2.
  split.
  - intros H. by apply N.div_small.
  - intros H. apply N.div_small_iff in H; [done | by apply N.pow_nonzero].
Qed.

Lemma uuid4_in_range (random : N) : Uuid.in_range (Uuid.uuid4 random).
Proof.
  apply in_range_shiftr. unfold Uuid.uuid4. cbv zeta.
  repeat (rewrite N.shiftr_lor || rewrite N.shiftr_ldiff).
  assert (H : N.shiftr (random `mod` 2 ^ 128) 128 = 0%N).
  { apply in_range_shiftr. apply N.mod_lt. by apply N.pow_nonzero. }
  rewrite H. reflexivity.
Qed.

End UuidFacts.

Module RoutingFacts.
Import Text TextFacts Py Db Main.

Lemma split_slash_segment (seg : string) :
  has_char is_slash seg = false -> split_slash seg = [seg].
Proof.
  induction seg as [|c seg IH]; simpl; [done |].
  intros [Hc Hs]%orb_false_elim. rewrite Hc, IH by done. done.
Qed.

Lemma merge_slashes_segment (seg : string) :
  has_char is_slash seg = false -> merge_slashes seg = seg.
Proof.
  induction seg as [|c seg IH]; [done |].
  intros [Hc Hs]%orb_false_elim. cbn [merge_slashes].
  destruct seg as [|c' seg]; [done |].
  rewrite Hc. cbn [andb]. by rewrite IH.
Qed.

Lemma merge_slashes_slash_segment (seg : string) :
  has_char is_slash seg = false -> merge_slashes (String "/" seg) = String "/" seg.
Proof.
  intros H. cbn [merge_slashes]. destruct seg as [|c seg]; [done |].
  pose proof H as H'. simpl in H'. apply orb_false_elim in H' as [Hc _].
  rewrite Hc, andb_false_r. by rewrite merge_slashes_segment.
Qed.

Lemma adapter_match_item (seg m : string) :
  has_char is_slash seg = false ->
  adapter_match ("/items/" ++ seg) m =
  match find_rule url_map (item_parts seg) m [] with
  | inl (r, values) =>
      match convert_all values with
      | Some args => Matched (rule_endpoint r) args
      | None => ConversionError
      end
  | inr have_match_for =>
      match find_rule url_map (item_parts seg) m have_match_for with
      | inl _ => RequestRedirect ("/items/" ++ seg)
      | inr [] => NotFound
      | inr (_ :: _) => MethodNotAllowed
      end
  end.
Proof.
  intros H. unfold adapter_match.
  assert (Hp : match "/items/" ++ seg with
               | EmptyString => EmptyString
               | _ => "/" ++ lstrip_slash ("/items/" ++ seg)
               end = "/items/" ++ seg) by reflexivity.
  assert (Hm : merge_slashes ("/items/" ++ seg)
               = "/items" ++ merge_slashes (String "/" seg)) by reflexivity.
  assert (Hs : split_slash ("/items/" ++ seg)
               = EmptyString :: "items" :: split_slash seg) by reflexivity.
  rewrite Hp, Hm, (merge_slashes_slash_segment seg H).
  change ("/items" ++ String "/" seg) with ("/items/" ++ seg).
  rewrite Hs, (split_slash_segment seg H). reflexivity.
Qed.

(* the walk over the URL map for /items/<seg>, by what the two converters
   say about the segment *)
Lemma find_rule_item (seg m : string) (have : list string) :
  find_rule url_map (item_parts seg) m have =
  if regex_match UUIDConverter seg then
    if String.eqb m "GET" || String.eqb m "HEAD" || String.eqb m "OPTIONS"
    then inl (mkRule [Static "items"; Dynamic UUIDConverter]
                     ["GET"; "HEAD"; "OPTIONS"] ep_get_item,
              [(UUIDConverter, seg)])
    else if String.eqb m "PUT" || String.eqb m "OPTIONS"
    then inl (mkRule [Static "items"; Dynamic UUIDConverter]
                     ["PUT"; "OPTIONS"] ep_update_item,
              [(UUIDConverter, seg)])
    else if regex_match IntegerConverter seg then
      if String.eqb m "DELETE" || String.eqb m "OPTIONS"
      then inl (mkRule [Static "items"; Dynamic IntegerConverter]
                       ["DELETE"; "OPTIONS"] ep_delete_item,
                [(IntegerConverter, seg)])
      else inr (((have ++ ["GET"; "HEAD"; "OPTIONS"]) ++ ["PUT"; "OPTIONS"])
                ++ ["DELETE"; "OPTIONS"])%list
    else inr ((have ++ ["GET"; "HEAD"; "OPTIONS"]) ++ ["PUT"; "OPTIONS"])%list
  else if regex_match IntegerConverter seg then
    if String.eqb m "DELETE" || String.eqb m "OPTIONS"
    then inl (mkRule [Static "items"; Dynamic IntegerConverter]
                     ["DELETE"; "OPTIONS"] ep_delete_item,
              [(IntegerConverter, seg)])
    else inr (have ++ ["DELETE"; "OPTIONS"])%list
  else inr have.
Proof.
  unfold url_map, item_parts.
  cbn [find_rule match_rule match_parts rule_parts rule_methods allows existsb
       String.eqb Ascii.eqb Bool.eqb fmap option_fmap option_map].
  destruct (regex_match UUIDConverter seg), (regex_match IntegerConverter seg),
    (String.eqb m "GET"), (String.eqb m "HEAD"), (String.eqb m "OPTIONS"),
    (String.eqb m "PUT"), (String.eqb m "DELETE"); reflexivity.
Qed.

Lemma valid_item_id_spec (m seg : string) :
  valid_item_id m seg =
  (regex_match UUIDConverter seg
   && (String.eqb m "GET" || String.eqb m "HEAD" || String.eqb m "OPTIONS"
       || String.eqb m "PUT"))
  || (regex_match IntegerConverter seg
      && (String.eqb m "DELETE" || String.eqb m "OPTIONS")).
Proof.
  unfold valid_item_id, url_map.
  cbn [existsb item_converter rule_parts rule_methods allows String.eqb
       Ascii.eqb Bool.eqb andb orb].
  destruct (regex_match UUIDConverter seg), (regex_match IntegerConverter seg),
    (String.eqb m "GET"), (String.eqb m "HEAD"), (String.eqb m "OPTIONS"),
    (String.eqb m "PUT"), (String.eqb m "DELETE"), (String.eqb m "POST");
    reflexivity.
Qed.

Lemma routing_rejects_invalid_id (m seg : string) :
  has_char is_slash seg = false ->
  valid_item_id m seg = false ->
  adapter_match ("/items/" ++ seg) m = NotFound
  \/ adapter_match ("/items/" ++ seg) m = MethodNotAllowed.
Proof.
  intros Hs Hv. rewrite adapter_match_item by done.
  rewrite valid_item_id_spec in Hv.
  rewrite find_rule_item.
  destruct (regex_match UUIDConverter seg) eqn:HU,
    (regex_match IntegerConverter seg) eqn:HI,
    (String.eqb m "GET") eqn:E1, (String.eqb m "HEAD") eqn:E2,
    (String.eqb m "OPTIONS") eqn:E3, (String.eqb m "PUT") eqn:E4,
    (String.eqb m "DELETE") eqn:E5; try discriminate Hv;
    cbn [orb]; cbv iota; rewrite find_rule_item, ?HU, ?HI, ?E1, ?E2, ?E3, ?E4, ?E5;
    cbn; auto.
Qed.

(** C8: a request for /items/<seg> whose segment does not parse as the id
    of an item route serving the request's method (GET, PUT and DELETE
    among them) is answered by the router with 404 or 405; no view runs
    and the world, database and sessions included, is untouched. *)
Theorem invalid_id_rejected_at_routing (m seg : string) (b : payload) (w : World) :
  has_char is_slash seg = false ->
  valid_item_id m seg = false ->
  exists code,
    wsgi_app (mkRequest m ("/items/" ++ seg) b) w = (mkResponse code VNone, w)
    /\ (code = 404 \/ code = 405)%nat.
Proof.
  intros Hs Hv. unfold wsgi_app, dispatch_request. cbn [path method].
  destruct (routing_rejects_invalid_id m seg Hs Hv) as [-> | ->].
  - exists 404%nat. split; [reflexivity | auto].
  - exists 405%nat. split; [reflexivity | auto].
Qed.


(* a request for /items/<str(u)>: the UUID rules match, the integer rule
   does not *)
Lemma find_rule_uuid (u : Uuid.t) (m : string) (have : list string) :
  find_rule url_map (item_parts (Uuid.str u)) m have =
  if String.eqb m "GET" || String.eqb m "HEAD" || String.eqb m "OPTIONS"
  then inl (mkRule [Static "items"; Dynamic UUIDConverter]
                   ["GET"; "HEAD"; "OPTIONS"] ep_get_item,
            [(UUIDConverter, Uuid.str u)])
  else if String.eqb m "PUT" || String.eqb m "OPTIONS"
  then inl (mkRule [Static "items"; Dynamic UUIDConverter]
                   ["PUT"; "OPTIONS"] ep_update_item,
            [(UUIDConverter, Uuid.str u)])
  else inr ((have ++ ["GET"; "HEAD"; "OPTIONS"]) ++ ["PUT"; "OPTIONS"])%list.
Proof.
  rewrite find_rule_item.
  by rewrite UuidFacts.uuid_regex_str, UuidFacts.int_regex_str.
Qed.

Lemma route_get_uuid (u : Uuid.t) :
  Uuid.in_range u ->
  adapter_match ("/items/" ++ Uuid.str u) "GET" = Matched ep_get_item [IdUuid u].
Proof.
  intros Hu. rewrite adapter_match_item by apply UuidFacts.no_slash_str.
  rewrite find_rule_uuid. cbn -[Uuid.of_string Uuid.str].
  by rewrite UuidFacts.of_string_str.
Qed.

Lemma route_put_uuid (u : Uuid.t) :
  Uuid.in_range u ->
  adapter_match ("/items/" ++ Uuid.str u) "PUT" = Matched ep_update_item [IdUuid u].
Proof.
  intros Hu. rewrite adapter_match_item by apply UuidFacts.no_slash_str.
  rewrite find_rule_uuid. cbn -[Uuid.of_string Uuid.str].
  by rewrite UuidFacts.of_string_str.
Qed.

Lemma route_delete_uuid (u : Uuid.t) :
  adapter_match ("/items/" ++ Uuid.str u) "DELETE" = MethodNotAllowed.
Proof.
  rewrite adapter_match_item by apply UuidFacts.no_slash_str.
  rewrite find_rule_uuid. cbn [String.eqb Ascii.eqb Bool.eqb orb].
  by rewrite find_rule_uuid.
Qed.

(** C1: a DELETE request for the text form of any UUID does not match the
    delete route: the integer converter rejects the segment, the matcher
    answers "method not allowed", delete_item does not run and the world,
    the stored rows included, stays as it was. *)
Theorem delete_never_matches_uuid (u : Uuid.t) (b : payload) (w : World) :
  regex_match IntegerConverter (Uuid.str u) = false
  /\ adapter_match ("/items/" ++ Uuid.str u) "DELETE" = MethodNotAllowed
  /\ wsgi_app (mkRequest "DELETE" ("/items/" ++ Uuid.str u) b) w
     = (mkResponse 405 VNone, w).
Proof.
  split; [apply UuidFacts.int_regex_str |].
  split; [apply route_delete_uuid |].
  unfold wsgi_app, dispatch_request. cbn [path method].
  by rewrite route_delete_uuid.
Qed.

Lemma invalid_id_rejected_at_routing_witness :
  exists code,
    wsgi_app (mkRequest "GET" "/items/abc" NotJson)
             (Scenario.empty_world Scenario.reliable)
    = (mkResponse code VNone, Scenario.empty_world Scenario.reliable)
    /\ (code = 404 \/ code = 405)%nat.
Proof.
  exact (invalid_id_rejected_at_routing "GET" "abc" NotJson
           (Scenario.empty_world Scenario.reliable) eq_refl eq_refl).
Defined.

(* an integer id on a UUID route: the path matches the delete rule only *)
Example get_integer_id_405 :
  fst (wsgi_app (mkRequest "GET" "/items/123" NotJson)
         (Scenario.empty_world Scenario.reliable)) = mkResponse 405 VNone.
Proof. reflexivity. Qed.

Example put_integer_id_405 :
  fst (wsgi_app (mkRequest "PUT" "/items/123" (Json (VDict [])))
         (Scenario.empty_world Scenario.reliable)) = mkResponse 405 VNone.
Proof. reflexivity. Qed.

Example delete_word_404 :
  fst (wsgi_app (mkRequest "DELETE" "/items/abc" NotJson)
         (Scenario.empty_world Scenario.reliable)) = mkResponse 404 VNone.
Proof. reflexivity. Qed.

(* an integer id reaches delete_item, whose lookup the server rejects *)
Example delete_integer_id_500 :
  fst (wsgi_app (mkRequest "DELETE" "/items/123" NotJson)
         Scenario.one_post)
  = mkResponse 500 VNone.
Proof. vm_compute; reflexivity. Qed.

End RoutingFacts.

Module SaveFacts.
Import Text TextFacts Py Db Main Frame.








End SaveFacts.

Module HandlerFacts.
Import Text TextFacts Py Db Main Frame.

Ltac run :=
  unfold get_items, get_item, create_item, update_item, delete_item,
    perform_healthcheck, engine_connect_execute, request_json, subscript,
    healthcheck_except, jsonify, abort, save, Db.delete, query_all, query_get,
    bind, try_finally, try_except, handling, Session, session_add,
    session_delete, session_commit, session_connection, session_rollback,
    session_close, set_pending, set_connected, pending, connected, emit,
    round_trip, raise, ret, bind;
  cbn; rewrite ?lookup_insert_eq; cbn.

Lemma sessions_open_app (l1 l2 : list event) (acc : list nat) :
  sessions_open (l1 ++ l2) acc = sessions_open l2 (sessions_open l1 acc).
Proof.
  revert acc; induction l1 as [|e l1 IH]; intros acc; [done |].
  destruct e; simpl; apply IH.
Qed.

(** C2 (fails on the code): when the query of get_items fails, the view
    answers 500 and returns with the session it opened still open: the
    log ends with the session's opening and its query, without a close. *)
Theorem get_items_leaves_session_open (w : World) (c : dbapi_class) (b : payload) :
  driver_fault (env w) (io_count w) = Some c ->
  let '(resp, w') := wsgi_app (mkRequest "GET" "/items" b) w in
  status resp = 500%nat
  /\ log w' = (log w ++ [SessionOpened (next_sid w); Queried (next_sid w)])%list
  /\ open_sessions w' = (open_sessions w ++ [next_sid w])%list.
Proof.
  intros Hf. unfold wsgi_app, dispatch_request. cbn [path method].
  change (adapter_match "/items" "GET") with (Matched ep_get_items []).
  cbn [String.eqb Ascii.eqb Bool.eqb call_view].
  run. rewrite Hf. cbn.
  split; [done |]. split; [by rewrite <- app_assoc |].
  unfold open_sessions. cbn. by rewrite <- app_assoc, sessions_open_app.
Qed.

(* the same happens in the three views that look a row up *)
Lemma lookup_views_leave_session_open (w : World) (c : dbapi_class)
    (u : Uuid.t) (n : N) (m p : string) (v : value) :
  driver_fault (env w) (io_count w) = Some c ->
  let leaked (view : M response) :=
    log (snd (view w))
    = (log w ++ [SessionOpened (next_sid w); Queried (next_sid w)])%list in
  leaked (get_item u)
  /\ leaked (update_item u (mkRequest m p (Json v)))
  /\ leaked (delete_item n).
Proof.
  intros Hf leaked. subst leaked. cbv beta.
  repeat split; run; rewrite Hf; cbn; by rewrite <- app_assoc.
Qed.

(* when the query goes through, get_items closes its session *)
Lemma get_items_closes_session (w : World) :
  driver_fault (env w) (io_count w) = None ->
  log (snd (get_items w))
  = (log w ++ [SessionOpened (next_sid w); Queried (next_sid w);
               SessionClosed (next_sid w)])%list.
Proof. intros Hf. run. rewrite Hf. cbn. by rewrite <- !app_assoc. Qed.

Lemma get_items_leaves_session_open_witness :
  let w := Scenario.empty_world Scenario.unreachable in
  let '(resp, w') := wsgi_app (mkRequest "GET" "/items" NotJson) w in
  status resp = 500%nat
  /\ log w' = [SessionOpened 0; Queried 0]
  /\ open_sessions w' = [0%nat].
Proof.
  exact (get_items_leaves_session_open
           (Scenario.empty_world Scenario.unreachable) OperationalError NotJson
           eq_refl).
Defined.

(** C7 (fails on the code): when the database cannot be reached, i.e. the
    driver fails the first round trip with psycopg2.OperationalError, the
    healthcheck answers 500, not 503: the error reaches the view as
    sqlalchemy.exc.OperationalError, which the first except clause does
    not catch. *)
Theorem healthcheck_connection_failure_is_500 (w : World) (b : payload) :
  driver_fault (env w) (io_count w) = Some OperationalError ->
  status (fst (wsgi_app (mkRequest "GET" "/healthcheck" b) w)) = 500%nat.
Proof.
  intros Hf. unfold wsgi_app, dispatch_request. cbn [path method].
  change (adapter_match "/healthcheck" "GET")
    with (Matched ep_perform_healthcheck []).
  cbn [String.eqb Ascii.eqb Bool.eqb call_view].
  run. by rewrite Hf.
Qed.

Lemma healthcheck_connection_failure_is_500_witness :
  status (fst (wsgi_app (mkRequest "GET" "/healthcheck" NotJson)
                 (Scenario.empty_world Scenario.unreachable))) = 500%nat.
Proof.
  exact (healthcheck_connection_failure_is_500
           (Scenario.empty_world Scenario.unreachable) NotJson eq_refl).
Defined.

(* whatever the driver does, the healthcheck answers 200 or 500 *)
Lemma healthcheck_never_503 (w : World) (b : payload) :
  let code := status (fst (wsgi_app (mkRequest "GET" "/healthcheck" b) w)) in
  code = 200%nat \/ code = 500%nat.
Proof.
  unfold wsgi_app, dispatch_request. cbn [path method].
  change (adapter_match "/healthcheck" "GET")
    with (Matched ep_perform_healthcheck []).
  cbn [String.eqb Ascii.eqb Bool.eqb call_view].
  run.
  destruct (driver_fault (env w) (io_count w)) as [[]|]; cbn; auto.
  destruct (driver_fault (env w) (S (io_count w))) as [[]|]; cbn; auto.
Qed.

(* the first except clause as written: an exception of the driver's own
   class psycopg2.OperationalError would be turned into 503 *)
Lemma healthcheck_except_503 (e : exn) (w : World) :
  is_psycopg2_OperationalError e = true ->
  healthcheck_except e w
  = (Raise (with_context e (Exn (HTTPException 503) None)), w).
Proof. intros H. unfold healthcheck_except. by rewrite H. Qed.

(* ... but the engine never lets one through: what it raises is wrapped *)
Lemma round_trip_raises_wrapped (w w' : World) (e : exn) :
  round_trip w = (Raise e, w') -> is_psycopg2_OperationalError e = false.
Proof.
  unfold round_trip. destruct (driver_fault (env w) (io_count w)) as [c|];
    intros H; by simplify_eq.
Qed.

(* when both round trips go through, the healthcheck answers 200 *)
Lemma healthcheck_ok (w : World) (b : payload) :
  driver_fault (env w) (io_count w) = None ->
  driver_fault (env w) (S (io_count w)) = None ->
  status (fst (wsgi_app (mkRequest "GET" "/healthcheck" b) w)) = 200%nat.
Proof.
  intros H1 H2. unfold wsgi_app, dispatch_request. cbn [path method].
  change (adapter_match "/healthcheck" "GET")
    with (Matched ep_perform_healthcheck []).
  cbn [String.eqb Ascii.eqb Bool.eqb call_view].
  run. rewrite H1. cbn. by rewrite H2.
Qed.

(* --- create, then get by id ------------------------------------------ *)

Lemma compare_values_eq (x y : value) : compare_values x y = true -> x = y.
Proof.
  destruct x, y; try done. cbn. by intros ->%String.eqb_eq.
Qed.

Lemma adapt_storable (v : value) : storable v = true -> adapt v = None.
Proof. destruct v; try done. cbn. by destruct (has_char is_nul s). Qed.

Lemma adapt_str (s : string) :
  has_char is_nul s = false -> adapt (VStr s) = None.
Proof. intros H. cbn. by rewrite H. Qed.

Lemma create_item_stores (w : World) (m p : string) (d : list (string * value))
    (name description : value) :
  dict_get d "name" = Some name ->
  dict_get d "description" = Some description ->
  adapt name = None ->
  adapt description = None ->
  driver_fault (env w) (io_count w) = None ->
  let u := Uuid.uuid4 (urandom (env w) (rand_count w)) in
  table w !! u = None ->
  exists w',
    create_item (mkRequest m p (Json (VDict d))) w
    = (Return (mkResponse 201
                 (VDict [("message", VStr "Item created successfully")])), w')
    /\ table w'
       = <[u := mkRow name description (Some (clock (env w) (clock_count w)))]>
           (table w)
    /\ env w' = env w
    /\ io_count w' = S (io_count w).
Proof.
  intros Hn Hd Han Had Hf u Hu. run. unfold getitem. rewrite Hn, Hd. cbn.
  rewrite ?lookup_insert_eq. cbn. rewrite Hf. cbn.
  rewrite ?lookup_insert_eq. cbn.
  unfold apply_change, bind_param, bind, ret, raise, default_id,
    default_created_at. cbn.
  rewrite Han, Had. cbn. fold u. rewrite Hu. cbn. eauto.
Qed.

Lemma update_item_stores (w : World) (u : Uuid.t) (r : Row) (m p : string)
    (d : list (string * value)) (name description : value) :
  table w !! u = Some r ->
  dict_get d "name" = Some name ->
  dict_get d "description" = Some description ->
  adapt name = None ->
  adapt description = None ->
  driver_fault (env w) (io_count w) = None ->
  driver_fault (env w) (S (io_count w)) = None ->
  exists w',
    update_item u (mkRequest m p (Json (VDict d))) w
    = (Return (mkResponse 200
                 (VDict [("message", VStr "Item updated successfully")])), w')
    /\ table w' = <[u := mkRow name description (row_created_at r)]> (table w)
    /\ env w' = env w
    /\ io_count w' = S (S (io_count w)).
Proof.
  intros Hr Hn Hd Han Had Hf1 Hf2. run. rewrite Hf1. cbn. rewrite Hr. cbn.
  unfold getitem. rewrite Hn, Hd. cbn. rewrite ?lookup_insert_eq. cbn.
  rewrite Hf2. cbn. rewrite ?lookup_insert_eq. cbn.
  unfold apply_change, bind_param, bind, ret, raise, title_changed,
    description_changed, updated_row, title_changed, description_changed. cbn.
  rewrite Han, Had.
  destruct (compare_values name (row_title r)) eqn:Hcn;
    destruct (compare_values description (row_description r)) eqn:Hcd;
    cbn; rewrite ?Hr; cbn;
    try apply compare_values_eq in Hcn; try apply compare_values_eq in Hcd;
    eexists; (split; [reflexivity |]); cbn; (split; [| done]);
    subst; try done.
  destruct r; symmetry; by apply insert_id.
Qed.

Lemma get_item_found (w : World) (u : Uuid.t) (r : Row) :
  driver_fault (env w) (io_count w) = None ->
  table w !! u = Some r ->
  exists w', get_item u w = (Return (mkResponse 200 (to_dict (load u r))), w').
Proof.
  intros Hf Hu. run. rewrite Hf. cbn. rewrite Hu. cbn. eauto.
Qed.

(** C5: after POST /items with a body whose name is the string a and whose
    description is the string b, neither holding a NUL character (which
    the driver refuses), GET /items/<id> for the generated id answers 200
    with title a and description b (the body field name is the column
    title). The database is taken to answer both round trips and the
    generated id to be unused. *)
Theorem create_then_get_round_trip (w : World) (d : list (string * value))
    (a b : string) :
  dict_get d "name" = Some (VStr a) ->
  dict_get d "description" = Some (VStr b) ->
  has_char is_nul a = false ->
  has_char is_nul b = false ->
  driver_fault (env w) (io_count w) = None ->
  driver_fault (env w) (S (io_count w)) = None ->
  let u := Uuid.uuid4 (urandom (env w) (rand_count w)) in
  table w !! u = None ->
  let '(created, w1) := wsgi_app (mkRequest "POST" "/items" (Json (VDict d))) w in
  let '(fetched, _) :=
    wsgi_app (mkRequest "GET" ("/items/" ++ Uuid.str u) NotJson) w1 in
  status created = 201%nat
  /\ status fetched = 200%nat
  /\ getitem (data fetched) "id" = inl (VStr (Uuid.str u))
  /\ getitem (data fetched) "title" = inl (VStr a)
  /\ getitem (data fetched) "description" = inl (VStr b).
Proof.
  intros Hn Hd Ha Hb Hf1 Hf2 u Hu.
  destruct (create_item_stores w "POST" "/items" d _ _ Hn Hd (adapt_str a Ha)
              (adapt_str b Hb) Hf1 Hu)
    as (w1 & Hc & Ht & He & Hio).
  unfold wsgi_app at 1, dispatch_request. cbn [path method].
  change (adapter_match "/items" "POST") with (Matched ep_create_item []).
  cbn [String.eqb Ascii.eqb Bool.eqb call_view]. rewrite Hc.
  assert (Hrow : table w1 !! u = Some (mkRow (VStr a) (VStr b)
                                 (Some (clock (env w) (clock_count w))))).
  { rewrite Ht. apply lookup_insert_eq. }
  assert (Hf : driver_fault (env w1) (io_count w1) = None)
    by (by rewrite He, Hio).
  destruct (get_item_found w1 u _ Hf Hrow) as (w2 & Hg).
  unfold wsgi_app, dispatch_request. cbn [path method].
  rewrite RoutingFacts.route_get_uuid by apply UuidFacts.uuid4_in_range.
  cbn [String.eqb Ascii.eqb Bool.eqb call_view]. rewrite Hg.
  cbn -[Uuid.str]. done.
Qed.

Lemma create_then_get_round_trip_witness :
  let w := Scenario.empty_world Scenario.reliable in
  let '(created, w1) := wsgi_app Scenario.post_AB w in
  let '(fetched, _) :=
    wsgi_app (mkRequest "GET" ("/items/" ++ Uuid.str Scenario.first_id) NotJson)
             w1 in
  status created = 201%nat
  /\ status fetched = 200%nat
  /\ getitem (data fetched) "id" = inl (VStr (Uuid.str Scenario.first_id))
  /\ getitem (data fetched) "title" = inl (VStr "A")
  /\ getitem (data fetched) "description" = inl (VStr "B").
Proof.
  exact (create_then_get_round_trip (Scenario.empty_world Scenario.reliable)
           [("name", VStr "A"); ("description", VStr "B")] "A" "B"
           eq_refl eq_refl eq_refl eq_refl eq_refl eq_refl (lookup_empty _)).
Defined.

(* --- update ------------------------------------------------------------ *)

(** C6: a PUT /items/<id> for a stored row that answers 200 leaves the row
    under the same id with the same created_at; only title and description
    are rewritten (to the body's name and description), and no other row
    changes. *)
Theorem update_rewrites_only_title_description (w : World) (u : Uuid.t)
    (r : Row) (b : payload) :
  let req := mkRequest "PUT" ("/items/" ++ Uuid.str u) b in
  Uuid.in_range u ->
  table w !! u = Some r ->
  status (fst (wsgi_app req w)) = 200%nat ->
  exists v name description,
    b = Json v
    /\ getitem v "name" = inl name
    /\ getitem v "description" = inl description
    /\ table (snd (wsgi_app req w))
       = <[u := mkRow name description (row_created_at r)]> (table w).
Proof.
  intros req. subst req.
  intros Hu Hr. unfold wsgi_app, dispatch_request. cbn [path method].
  rewrite RoutingFacts.route_put_uuid by done.
  cbn [String.eqb Ascii.eqb Bool.eqb call_view].
  run. destruct b as [| |v]; cbn; try discriminate.
  destruct (driver_fault (env w) (io_count w)); cbn; [discriminate |].
  rewrite Hr. cbn.
  destruct (getitem v "name") as [name|] eqn:Hn; cbn; [| discriminate].
  destruct (getitem v "description") as [description|] eqn:Hd; cbn;
    [| discriminate].
  rewrite ?lookup_insert_eq. cbn.
  destruct (driver_fault (env w) (S (io_count w))); cbn;
    rewrite ?lookup_insert_eq; cbn; [discriminate |].
  unfold apply_change, bind_param, bind, ret, raise, title_changed,
    description_changed, updated_row, title_changed, description_changed. cbn.
  destruct (compare_values name (row_title r)) eqn:Hcn;
    destruct (compare_values description (row_description r)) eqn:Hcd;
    cbn;
    destruct (adapt name), (adapt description); cbn;
    rewrite ?Hr; cbn; rewrite ?lookup_insert_eq; cbn;
    try (destruct (driver_fault (env w) (S (S (io_count w)))); cbn);
    try discriminate;
    intros _; exists v, name, description; (repeat split; try done);
    try apply compare_values_eq in Hcn; try apply compare_values_eq in Hcd;
    subst; try done;
    destruct r; symmetry; by apply insert_id.
Qed.

Lemma update_rewrites_only_title_description_witness :
  let req :=
    mkRequest "PUT" ("/items/" ++ Uuid.str Scenario.first_id)
      (Json (VDict [("name", VStr "A2"); ("description", VNone)])) in
  table Scenario.one_post !! Scenario.first_id
  = Some (mkRow (VStr "A") (VStr "B") (Some 0%Z))
  /\ exists v name description,
       body req = Json v
       /\ getitem v "name" = inl name
       /\ getitem v "description" = inl description
       /\ table (snd (wsgi_app req Scenario.one_post))
          = <[Scenario.first_id := mkRow name description (Some 0%Z)]>
              (table Scenario.one_post).
Proof.
  assert (Hrow : table Scenario.one_post !! Scenario.first_id
                 = Some (mkRow (VStr "A") (VStr "B") (Some 0%Z)))
    by (vm_compute; reflexivity).
  split; [exact Hrow |].
  apply (update_rewrites_only_title_description Scenario.one_post
           Scenario.first_id _ _ (UuidFacts.uuid4_in_range _) Hrow).
  vm_compute; reflexivity.
Defined.

(* --- bodies that lack a key ------------------------------------------- *)

Lemma create_item_missing_key (w : World) (m p : string)
    (d : list (string * value)) :
  dict_get d "name" = None \/ dict_get d "description" = None ->
  create_item (mkRequest m p (Json (VDict d))) w
  = (Raise (Exn (HTTPException 500) (Some (Exn KeyError None))), w).
Proof.
  intros H. run. unfold getitem.
  destruct (dict_get d "name") as [name|]; cbn; [| done].
  destruct H as [H | H]; [done |]. by rewrite H.
Qed.

Lemma update_item_missing_key (w : World) (u : Uuid.t) (r : Row) (m p : string)
    (d : list (string * value)) :
  dict_get d "name" = None \/ dict_get d "description" = None ->
  table w !! u = Some r ->
  exists ctx, fst (update_item u (mkRequest m p (Json (VDict d))) w)
              = Raise (Exn (HTTPException 500) ctx).
Proof.
  intros H Hr. run.
  destruct (driver_fault (env w) (io_count w)); cbn; [eauto |].
  rewrite Hr. cbn. unfold getitem.
  destruct (dict_get d "name") as [name|]; cbn; [| eauto].
  destruct H as [H | H]; [done |]. rewrite H. cbn. eauto.
Qed.

Lemma write_request_missing_key (w : World) (req : request)
    (d : list (string * value)) :
  write_request w req ->
  body req = Json (VDict d) ->
  dict_get d "name" = None \/ dict_get d "description" = None ->
  status (fst (wsgi_app req w)) = 500%nat.
Proof.
  intros Hreq Hb Hk. destruct Hreq as [b | u r b Hu Hr]; cbn in Hb; subst b.
  - unfold wsgi_app, dispatch_request. cbn [path method].
    change (adapter_match "/items" "POST") with (Matched ep_create_item []).
    cbn [String.eqb Ascii.eqb Bool.eqb call_view].
    by rewrite create_item_missing_key.
  - unfold wsgi_app, dispatch_request. cbn [path method].
    rewrite RoutingFacts.route_put_uuid by done.
    cbn [String.eqb Ascii.eqb Bool.eqb call_view].
    destruct (update_item_missing_key w u r "PUT" ("/items/" ++ Uuid.str u) d
                Hk Hr) as [ctx Hx].
    destruct (update_item u _ w) as [o w']. cbn in Hx. by subst o.
Qed.

(** C3 (as amended): a create request, or an update request for a stored
    row, whose JSON object body has no "name" key is answered 500 by the
    view's catch-all handler. *)
Theorem missing_name_is_500 (w : World) (req : request)
    (d : list (string * value)) :
  write_request w req ->
  body req = Json (VDict d) ->
  dict_get d "name" = None ->
  status (fst (wsgi_app req w)) = 500%nat.
Proof. intros Hreq Hb Hk. eapply write_request_missing_key; eauto. Qed.

Lemma missing_name_is_500_witness :
  status (fst (wsgi_app
                 (mkRequest "POST" "/items"
                    (Json (VDict [("description", VStr "B")])))
                 (Scenario.empty_world Scenario.reliable))) = 500%nat.
Proof.
  exact (missing_name_is_500 (Scenario.empty_world Scenario.reliable)
           (mkRequest "POST" "/items" (Json (VDict [("description", VStr "B")])))
           [("description", VStr "B")]
           (write_create _ _) eq_refl eq_refl).
Defined.

(* C3 as stated fails: the create request without "name" gets 500, which
   is no 4xx *)
Lemma missing_name_not_4xx :
  let resp :=
    fst (wsgi_app (mkRequest "POST" "/items"
                     (Json (VDict [("description", VStr "B")])))
           (Scenario.empty_world Scenario.reliable)) in
  status resp = 500%nat /\ ~ (400 <= status resp < 500)%nat.
Proof. vm_compute. split; [reflexivity | lia]. Qed.

(** C10 (as amended): a create request, or an update request for a stored
    row, whose JSON object body has no "description" key is answered 500
    by the view's catch-all handler, although the column is nullable. *)
Theorem missing_description_is_500 (w : World) (req : request)
    (d : list (string * value)) :
  write_request w req ->
  body req = Json (VDict d) ->
  dict_get d "description" = None ->
  status (fst (wsgi_app req w)) = 500%nat.
Proof. intros Hreq Hb Hk. eapply write_request_missing_key; eauto. Qed.

Lemma missing_description_is_500_witness :
  status (fst (wsgi_app
                 (mkRequest "PUT" ("/items/" ++ Uuid.str Scenario.first_id)
                    (Json (VDict [("name", VStr "A2")])))
                 Scenario.one_post)) = 500%nat.
Proof.
  refine (missing_description_is_500 Scenario.one_post
            (mkRequest "PUT" ("/items/" ++ Uuid.str Scenario.first_id)
               (Json (VDict [("name", VStr "A2")])))
            [("name", VStr "A2")]
            (write_update _ Scenario.first_id
               (mkRow (VStr "A") (VStr "B") (Some 0%Z)) _
               (UuidFacts.uuid4_in_range _) _)
            eq_refl eq_refl).
  vm_compute; reflexivity.
Defined.

(* C10 as stated fails: an update without "description" addressed to an
   id that is not stored gets 404 *)
Lemma missing_description_unknown_id_404 :
  status (fst (wsgi_app
                 (mkRequest "PUT" ("/items/" ++ Uuid.str Scenario.first_id)
                    (Json (VDict [("name", VStr "A2")])))
                 (Scenario.empty_world Scenario.reliable))) = 404%nat.
Proof. vm_compute; reflexivity. Qed.

End HandlerFacts.

Module StartupFacts.
Import Py Db.

Lemma truthy_false (x : option string) :
  truthy x = false <-> x = None \/ x = Some EmptyString.
Proof.
  destruct x as [[|c s]|]; simpl; split; intros H; auto; try done.
  destruct H as [H | H]; discriminate H.
Qed.

Lemma truthy_true (x : option string) :
  truthy x = true <-> exists c s, x = Some (String c s).
Proof.
  destruct x as [[|c s]|]; simpl; split; intros H; eauto; try done.
  all: destruct H as (c' & s' & H); discriminate H.
Qed.

Lemma configured_true environ :
  configured environ = true
  <-> forall k, k ∈ required -> exists c s, environ k = Some (String c s).
Proof.
  unfold configured, all, required. cbn [forallb].
  rewrite !andb_true_iff, !truthy_true. split.
  - intros (H1 & H2 & H3 & _) k Hk.
    repeat (apply elem_of_cons in Hk as [-> | Hk]; [done |]).
    by apply elem_of_nil in Hk.
  - intros H. repeat split; try apply H; rewrite !elem_of_cons; auto.
Qed.

Lemma configured_false environ :
  configured environ = false
  <-> exists k, k ∈ required /\ (environ k = None \/ environ k = Some EmptyString).
Proof.
  unfold configured, all, required. cbn [forallb].
  rewrite !andb_false_iff, !truthy_false. split.
  - intros [H | [H | [H | H]]];
      [exists "POSTGRES_USER" | exists "POSTGRES_PASSWORD"
       | exists "POSTGRES_DB" | done];
      (split; [| exact H]); rewrite !elem_of_cons; auto.
  - intros (k & Hk & Hv).
    repeat (apply elem_of_cons in Hk as [-> | Hk]; [tauto |]).
    by apply elem_of_nil in Hk.
Qed.

(** C9 (as amended): module initialisation raises ValueError exactly when
    one of POSTGRES_USER, POSTGRES_PASSWORD, POSTGRES_DB is unset or
    empty, and goes on to create the engine exactly when all three are
    set to non-empty strings. *)
Theorem startup_fails_fast (environ : string -> option string) :
  (module_init environ = Raised (Exn ValueError None)
   <-> exists k, k ∈ required /\ (environ k = None \/ environ k = Some EmptyString))
  /\ ((exists url, module_init environ = EngineCreated url)
      <-> forall k, k ∈ required -> exists c s, environ k = Some (String c s)).
Proof.
  rewrite <- configured_false, <- configured_true.
  unfold module_init. fold (configured environ).
  destruct (configured environ); cbn [negb]; split; split; try done.
  - intros _. eauto.
  - intros (url & H). discriminate H.
Qed.

(* C9 as stated fails: all three variables are set, one to the empty
   string, and initialisation raises *)
Lemma startup_raises_though_all_set :
  Scenario.env_empty_user "POSTGRES_USER" = Some EmptyString
  /\ Scenario.env_empty_user "POSTGRES_PASSWORD" = Some "x"
  /\ Scenario.env_empty_user "POSTGRES_DB" = Some "x"
  /\ module_init Scenario.env_empty_user = Raised (Exn ValueError None).
Proof. repeat split. Qed.

(* with the three variables set to non-empty strings the engine is created,
   an unset host printing as None *)
Example startup_complete :
  module_init Scenario.env_complete
  = EngineCreated "postgresql://x:x@None:5432/x".
Proof. reflexivity. Qed.

End StartupFacts.

(* ===================================================================== *)
(* 7. Further properties of db.py                                        *)
(* ===================================================================== *)

Module PersistenceFacts.
Import Text Py Db Main Frame.

Ltac run_db :=
  unfold save, Db.delete, bind, try_finally, try_except, handling, Session,
    session_add, session_delete, session_commit, session_connection,
    session_rollback, session_close, set_pending, set_connected, pending,
    connected, emit, round_trip, raise, ret, bind;
  cbn; rewrite ?lookup_insert_eq; cbn.

Ltac run_flush :=
  unfold apply_change, bind_param, bind, ret, raise, default_id,
    default_created_at;
  cbn; rewrite ?lookup_insert_eq; cbn.

(** X1: saving a new BlogPost whose title and description are each None or
    a string without a NUL character, when the database answers and the id
    that uuid4 generates is not stored yet, inserts one row under that id:
    it holds the entity's title and description and the clock's reading as
    created_at; every other row stays, and the one session used is opened,
    committed and closed. *)
Theorem save_new_inserts_row (w : World) (title description : value) :
  storable title = true ->
  storable description = true ->
  driver_fault (env w) (io_count w) = None ->
  table w !! Uuid.uuid4 (urandom (env w) (rand_count w)) = None ->
  let u := Uuid.uuid4 (urandom (env w) (rand_count w)) in
  let '(o, w') := save (new_BlogPost title description) w in
  o = Return tt
  /\ table w'
     = <[u := mkRow title description (Some (clock (env w) (clock_count w)))]>
         (table w)
  /\ (forall u', u' <> u -> table w' !! u' = table w !! u')
  /\ log w' = (log w ++ [SessionOpened (next_sid w); Committed (next_sid w);
                         SessionClosed (next_sid w)])%list
  /\ next_sid w' = S (next_sid w).
Proof.
  intros Ht Hd Hf Hu u. run_db. rewrite Hf. cbn. run_flush.
  rewrite (HandlerFacts.adapt_storable _ Ht), (HandlerFacts.adapt_storable _ Hd).
  cbn. rewrite Hu. cbn.
  repeat split.
  - intros u' Hne. by rewrite lookup_insert_ne.
  - by rewrite <- !app_assoc.
Qed.

Lemma save_new_inserts_row_witness :
  let w := Scenario.empty_world Scenario.reliable in
  let '(o, w') := save (new_BlogPost (VStr "A") VNone) w in
  o = Return tt
  /\ table w' = <[Scenario.first_id := mkRow (VStr "A") VNone (Some 0%Z)]> ∅
  /\ (forall u', u' <> Scenario.first_id -> table w' !! u' = (∅ : gmap N Row) !! u')
  /\ log w' = [SessionOpened 0; Committed 0; SessionClosed 0]
  /\ next_sid w' = 1%nat.
Proof.
  exact (save_new_inserts_row (Scenario.empty_world Scenario.reliable)
           (VStr "A") VNone eq_refl eq_refl eq_refl (lookup_empty _)).
Defined.

(** X2: saving a new BlogPost (title and description each None or a string
    without NUL) whose generated id is already stored never overwrites the
    stored row: the INSERT fails, save raises an exception that carries
    the wrapped IntegrityError, the table is unchanged and the session is
    rolled back and closed. *)
Theorem save_new_never_overwrites (w : World) (title description : value)
    (r : Row) :
  storable title = true ->
  storable description = true ->
  driver_fault (env w) (io_count w) = None ->
  table w !! Uuid.uuid4 (urandom (env w) (rand_count w)) = Some r ->
  let '(o, w') := save (new_BlogPost title description) w in
  (exists x, o = Raise x /\ carries (wrap_dbapi IntegrityError) x)
  /\ table w' = table w
  /\ log w' = (log w ++ [SessionOpened (next_sid w); Rollback (next_sid w);
                         SessionClosed (next_sid w)])%list.
Proof.
  intros Ht Hd Hf Hu. run_db. rewrite Hf. cbn. run_flush.
  rewrite (HandlerFacts.adapt_storable _ Ht), (HandlerFacts.adapt_storable _ Hd).
  cbn. rewrite Hu. cbn. rewrite ?lookup_insert_eq. cbn.
  destruct (driver_fault (env w) (S (io_count w))); cbn;
    (split;
     [eexists; split; [reflexivity | unfold with_context; repeat constructor]
     | split; [done | by rewrite <- !app_assoc]]).
Qed.

Lemma save_new_never_overwrites_witness :
  let w :=
    mkWorld (table Scenario.one_post) ∅ 0 [] 0 0 0 Scenario.reliable in
  let '(o, w') := save (new_BlogPost (VStr "C") (VStr "D")) w in
  (exists x, o = Raise x /\ carries (wrap_dbapi IntegrityError) x)
  /\ table w' = table w
  /\ log w' = [SessionOpened 0; Rollback 0; SessionClosed 0].
Proof.
  refine (save_new_never_overwrites
            (mkWorld (table Scenario.one_post) ∅ 0 [] 0 0 0 Scenario.reliable)
            (VStr "C") (VStr "D") (mkRow (VStr "A") (VStr "B") (Some 0%Z))
            eq_refl eq_refl eq_refl _).
  vm_compute; reflexivity.
Defined.

(** X3: delete follows the same discipline as save. When it returns, the
    instance was a persisted one, its row is gone, every other row stays
    and the log reads open, commit, close. When it raises, the table is
    unchanged and the log reads open, rollback, close. A BlogPost that was
    never saved therefore cannot be deleted: delete raises. *)
Theorem delete_commits_or_rolls_back (self : BlogPost) (w : World) :
  let sid := next_sid w in
  match Db.delete self w with
  | (Return _, w') =>
      persistent self = true
      /\ (exists u, bp_id self = Some u /\ table w' = base.delete u (table w))
      /\ log w' = (log w ++ [SessionOpened sid; Committed sid;
                             SessionClosed sid])%list
  | (Raise x, w') =>
      table w' = table w
      /\ log w' = (log w ++ [SessionOpened sid; Rollback sid;
                             SessionClosed sid])%list
  end.
Proof.
  intros sid. subst sid. run_db.
  destruct (persistent self) eqn:Hp; cbn; rewrite ?lookup_insert_eq; cbn.
  - destruct (driver_fault (env w) (io_count w)) eqn:Hf; cbn;
      rewrite ?lookup_insert_eq; cbn.
    + split; [done | by rewrite <- !app_assoc].
    + run_flush. destruct (bp_id self) as [u|] eqn:Hid; cbn;
        rewrite ?lookup_insert_eq; cbn.
      * split; [done |]. split; [eauto | by rewrite <- !app_assoc].
      * destruct (driver_fault (env w) (S (io_count w))); cbn;
          (split; [done | by rewrite <- !app_assoc]).
  - split; [done | by rewrite <- !app_assoc].
Qed.

(** X4: save and delete compose to the identity on the table: after a new
    BlogPost (title and description each None or a string without NUL) was
    saved under an unused id, deleting the instance loaded from that row
    gives back the table as it was before the save. *)
Theorem save_then_delete_restores_table (w : World) (title description : value) :
  storable title = true ->
  storable description = true ->
  driver_fault (env w) (io_count w) = None ->
  driver_fault (env w) (S (io_count w)) = None ->
  table w !! Uuid.uuid4 (urandom (env w) (rand_count w)) = None ->
  let u := Uuid.uuid4 (urandom (env w) (rand_count w)) in
  let '(o1, w1) := save (new_BlogPost title description) w in
  o1 = Return tt
  /\ exists r, table w1 !! u = Some r
       /\ let '(o2, w2) := Db.delete (load u r) w1 in
          o2 = Return tt /\ table w2 = table w.
Proof.
  intros Ht Hd Hf1 Hf2 Hu u. run_db. rewrite Hf1. cbn. run_flush.
  rewrite (HandlerFacts.adapt_storable _ Ht), (HandlerFacts.adapt_storable _ Hd).
  cbn. rewrite Hu. cbn.
  fold u. split; [done |]. eexists. split; [apply lookup_insert_eq |].
  run_db. rewrite Hf2. cbn. run_flush.
  split; [done |]. by apply delete_insert_id.
Qed.

Lemma save_then_delete_restores_table_witness :
  let w := Scenario.empty_world Scenario.reliable in
  let '(o1, w1) := save (new_BlogPost (VStr "A") (VStr "B")) w in
  o1 = Return tt
  /\ exists r, table w1 !! Scenario.first_id = Some r
       /\ let '(o2, w2) := Db.delete (load Scenario.first_id r) w1 in
          o2 = Return tt /\ table w2 = ∅.
Proof.
  exact (save_then_delete_restores_table
           (Scenario.empty_world Scenario.reliable) (VStr "A") (VStr "B")
           eq_refl eq_refl eq_refl eq_refl (lookup_empty _)).
Defined.

(** X5: saving an instance that was loaded from a stored row and then
    assigned a title and a description (each None or a string without NUL)
    rewrites that row and no other: the row under the instance's id holds
    the assigned title and description and the created_at it had, every
    other row is unchanged, and the one session used is opened, committed
    and closed. The database is taken to answer the commit. *)
Theorem save_loaded_rewrites_row (w : World) (u : Uuid.t) (r : Row)
    (title description : value) :
  storable title = true ->
  storable description = true ->
  table w !! u = Some r ->
  driver_fault (env w) (io_count w) = None ->
  let self := set_description description (set_title title (load u r)) in
  let '(o, w') := save self w in
  o = Return tt
  /\ table w' = <[u := mkRow title description (row_created_at r)]> (table w)
  /\ (forall u', u' <> u -> table w' !! u' = table w !! u')
  /\ log w' = (log w ++ [SessionOpened (next_sid w); Committed (next_sid w);
                         SessionClosed (next_sid w)])%list.
Proof.
  intros Ht Hd Hr Hf self. subst self. run_db. rewrite Hf. cbn. run_flush.
  unfold title_changed, description_changed, updated_row, title_changed,
    description_changed. cbn.
  rewrite (HandlerFacts.adapt_storable _ Ht), (HandlerFacts.adapt_storable _ Hd).
  destruct (compare_values title (row_title r)) eqn:Hct;
    destruct (compare_values description (row_description r)) eqn:Hcd;
    cbn; rewrite ?Hr; cbn;
    try apply HandlerFacts.compare_values_eq in Hct;
    try apply HandlerFacts.compare_values_eq in Hcd;
    (split; [done |]);
    match goal with
    | |- ?T = ?X /\ _ => assert (HT : T = X)
    end;
    try (subst; first [ done | destruct r; symmetry; by apply insert_id ]);
    (split; [exact HT |]);
    (split; [| by rewrite <- !app_assoc]);
    intros u' Hne; first [ done | by rewrite lookup_insert_ne ].
Qed.

Lemma save_loaded_rewrites_row_witness :
  let self :=
    set_description VNone
      (set_title (VStr "A2")
         (load Scenario.first_id (mkRow (VStr "A") (VStr "B") (Some 0%Z)))) in
  let '(o, w') := save self Scenario.one_post in
  o = Return tt
  /\ table w'
     = <[Scenario.first_id := mkRow (VStr "A2") VNone (Some 0%Z)]>
         (table Scenario.one_post)
  /\ (forall u', u' <> Scenario.first_id ->
        table w' !! u' = table Scenario.one_post !! u')
  /\ log w' = (log Scenario.one_post
               ++ [SessionOpened (next_sid Scenario.one_post);
                   Committed (next_sid Scenario.one_post);
                   SessionClosed (next_sid Scenario.one_post)])%list.
Proof.
  refine (save_loaded_rewrites_row Scenario.one_post Scenario.first_id
            (mkRow (VStr "A") (VStr "B") (Some 0%Z)) (VStr "A2") VNone
            eq_refl eq_refl _ eq_refl).
  vm_compute; reflexivity.
Defined.

End PersistenceFacts.

(* ===================================================================== *)
(* 8. Further properties of main.py                                      *)
(* ===================================================================== *)

Module ViewFacts.
Import Text TextFacts Py Db Main Frame.

Ltac run := HandlerFacts.run.
Ltac run_flush := PersistenceFacts.run_flush.

(* --- which view a request can reach ----------------------------------- *)

Lemma find_rule_inl (rules : list rule) (parts : list string) (m : string)
    (have : list string) (r : rule) (values : list (converter * string)) :
  find_rule rules parts m have = inl (r, values) ->
  In r rules /\ allows r m = true /\ match_rule r parts = Some values.
Proof.
  revert have; induction rules as [|r0 rules IH]; intros have; [done |].
  cbn [find_rule]. destruct (match_rule r0 parts) as [vals|] eqn:Hm.
  - destruct (allows r0 m) eqn:Ha.
    + intros [= <- <-]. cbn. auto.
    + intros H. apply IH in H as (? & ? & ?). cbn. auto.
  - intros H. apply IH in H as (? & ? & ?). cbn. auto.
Qed.

Lemma adapter_match_matched (p m : string) (ep : endpoint) (args : list ident) :
  adapter_match p m = Matched ep args ->
  exists r, In r url_map /\ allows r m = true /\ rule_endpoint r = ep.
Proof.
  unfold adapter_match.
  destruct (find_rule url_map _ m []) as [[r values]|have] eqn:Hf.
  - apply find_rule_inl in Hf as (Hin & Ha & _).
    destruct (convert_all values); [| done]. intros [= <- _]. eauto.
  - destruct (find_rule url_map _ m have) as [?|[|? ?]]; done.
Qed.

(* the methods each view is registered for *)
Lemma view_method (p m : string) (ep : endpoint) (args : list ident) :
  adapter_match p m = Matched ep args ->
  String.eqb m "OPTIONS" = false ->
  match ep with
  | ep_create_item => m = "POST"
  | ep_update_item => m = "PUT"
  | ep_delete_item => m = "DELETE"
  | _ => m = "GET" \/ m = "HEAD"
  end.
Proof.
  intros (r & Hin & Ha & <-)%adapter_match_matched Ho.
  unfold url_map in Hin. cbn [In] in Hin.
  destruct Hin as [<- | [<- | [<- | [<- | [<- | [<- | []]]]]]];
    cbn [allows rule_methods rule_endpoint existsb] in *;
    rewrite Ho in Ha; rewrite ?orb_false_r in Ha;
    repeat (apply orb_prop in Ha as [Ha | Ha]);
    apply String.eqb_eq in Ha; auto.
Qed.

(* --- what each view does to the table --------------------------------- *)

Lemma get_items_table (w : World) : table (snd (get_items w)) = table w.
Proof. run. by destruct (driver_fault (env w) (io_count w)). Qed.

Lemma get_item_table (u : Uuid.t) (w : World) :
  table (snd (get_item u w)) = table w.
Proof.
  run. destruct (driver_fault (env w) (io_count w)); cbn; [done |].
  by destruct (table w !! u).
Qed.

(* delete_item never returns: its lookup by an integer raises *)
Lemma delete_item_outcome (n : N) (w : World) :
  exists ctx w',
    delete_item n w = (Raise (Exn (HTTPException 500) ctx), w')
    /\ table w' = table w
    /\ log w' = (log w ++ [SessionOpened (next_sid w); Queried (next_sid w)])%list.
Proof.
  run. destruct (driver_fault (env w) (io_count w)); cbn;
    eexists _, _; (split; [reflexivity |]); (split; [done |]);
    cbn; by rewrite <- !app_assoc.
Qed.

Lemma perform_healthcheck_table (w : World) :
  table (snd (perform_healthcheck w)) = table w.
Proof.
  run. destruct (driver_fault (env w) (io_count w)) as [[]|]; cbn; try done.
  by destruct (driver_fault (env w) (S (io_count w))) as [[]|].
Qed.

Lemma create_item_effect (req : request) (w : World) :
  match create_item req w with
  | (Return resp, w') =>
      status resp = 201%nat
      /\ exists u r, Uuid.in_range u /\ table w !! u = None
                     /\ table w' = <[u := r]> (table w)
  | (Raise _, w') => table w' = table w
  end.
Proof.
  run. destruct (body req) as [| |v]; cbn; try done.
  destruct (getitem v "name") as [name|]; cbn; [| done].
  destruct (getitem v "description") as [description|]; cbn; [| done].
  rewrite ?lookup_insert_eq. cbn.
  destruct (driver_fault (env w) (io_count w)); cbn;
    rewrite ?lookup_insert_eq; cbn; [done |].
  run_flush.
  destruct (adapt name); cbn; rewrite ?lookup_insert_eq; cbn.
  { by destruct (driver_fault (env w) (S (io_count w))). }
  destruct (adapt description); cbn; rewrite ?lookup_insert_eq; cbn.
  { by destruct (driver_fault (env w) (S (io_count w))). }
  destruct (table w !! Uuid.uuid4 (urandom (env w) (rand_count w))) eqn:Hu; cbn;
    rewrite ?lookup_insert_eq; cbn.
  { by destruct (driver_fault (env w) (S (io_count w))). }
  split; [done |]. eexists _, _.
  split; [apply UuidFacts.uuid4_in_range |]. split; [exact Hu | done].
Qed.

Lemma update_item_effect (u : Uuid.t) (req : request) (w : World) :
  match update_item u req w with
  | (Return resp, w') =>
      (status resp = 404%nat /\ table w' = table w)
      \/ (status resp = 200%nat
          /\ exists r r', table w !! u = Some r
                /\ row_created_at r' = row_created_at r
                /\ table w' = <[u := r']> (table w))
  | (Raise _, w') => table w' = table w
  end.
Proof.
  run. destruct (body req) as [| |v]; cbn; try done.
  destruct (driver_fault (env w) (io_count w)); cbn; [done |].
  destruct (table w !! u) as [r|] eqn:Hr; cbn; [| auto].
  destruct (getitem v "name") as [name|]; cbn; [| done].
  destruct (getitem v "description") as [description|]; cbn; [| done].
  rewrite ?lookup_insert_eq. cbn.
  destruct (driver_fault (env w) (S (io_count w))); cbn;
    rewrite ?lookup_insert_eq; cbn; [done |].
  run_flush.
  unfold title_changed, description_changed, updated_row, title_changed,
    description_changed; cbn.
  destruct (compare_values name (row_title r)),
    (compare_values description (row_description r)); cbn;
    destruct (adapt name), (adapt description); cbn;
    rewrite ?Hr; cbn; rewrite ?lookup_insert_eq; cbn;
    try (by destruct (driver_fault (env w) (S (S (io_count w)))));
    try (by left).
  all: right; (split; [done |]); eexists r, _; (split; [done |]).
  all: (split; [| first [ done | symmetry; by apply insert_id ]]); done.
Qed.

(* every request: what the table may become, and under which method and
   status *)
Lemma request_effect (req : request) (w : World) :
  let '(resp, w') := wsgi_app req w in
  table w' = table w
  \/ (method req = "POST" /\ status resp = 201%nat
      /\ exists u r, Uuid.in_range u /\ table w !! u = None
                     /\ table w' = <[u := r]> (table w))
  \/ (method req = "PUT" /\ status resp = 200%nat
      /\ exists u r r', table w !! u = Some r
            /\ row_created_at r' = row_created_at r
            /\ table w' = <[u := r']> (table w)).
Proof.
  unfold wsgi_app, dispatch_request.
  destruct (adapter_match (path req) (method req)) as [ep args| | | |] eqn:Hm;
    cbn; auto.
  destruct (String.eqb (method req) "OPTIONS") eqn:Ho; cbn; [auto |].
  pose proof (view_method _ _ _ _ Hm Ho) as Hmeth.
  destruct ep; destruct args as [|[u|n] [|? ?]]; cbn [call_view];
    try (unfold raise; cbn; by auto).
  - pose proof (perform_healthcheck_table w) as H.
    destruct (perform_healthcheck w) as [[?|[[] ?]] ?]; cbn in *; auto.
  - pose proof (get_items_table w) as H.
    destruct (get_items w) as [[?|[[] ?]] ?]; cbn in *; auto.
  - pose proof (get_item_table u w) as H.
    destruct (get_item u w) as [[?|[[] ?]] ?]; cbn in *; auto.
  - pose proof (create_item_effect req w) as H.
    destruct (create_item req w) as [[resp|[[] ?]] w']; cbn in *;
      intuition auto.
  - pose proof (update_item_effect u req w) as H.
    destruct (update_item u req w) as [[resp|[[] ?]] w']; cbn in *;
      intuition eauto 10.
  - destruct (delete_item_outcome n w) as (ctx & w' & -> & Ht & _). cbn. auto.
Qed.

(** X6: failures are atomic and only two routes write. After any request
    the table is what it was, unless the request was a POST answered 201
    or a PUT answered 200; GET, HEAD, OPTIONS and DELETE requests, and
    every request answered with an error, leave the table unchanged. *)
Theorem table_changes_only_on_success (req : request) (w : World) :
  let '(resp, w') := wsgi_app req w in
  table w' = table w
  \/ (method req = "POST" /\ status resp = 201%nat)
  \/ (method req = "PUT" /\ status resp = 200%nat).
Proof.
  pose proof (request_effect req w) as H.
  destruct (wsgi_app req w) as [resp w'].
  destruct H as [H | [(? & ? & _) | (? & ? & _)]]; auto.
Qed.

(** X7: one request touches at most one row: the table after it is the
    table before it, or that table with one row inserted under a UUID
    that was not stored, or that table with one stored row rewritten and
    its created_at kept. *)
Theorem request_touches_one_row (req : request) (w : World) :
  table_effect (table w) (table (snd (wsgi_app req w))).
Proof.
  pose proof (request_effect req w) as H.
  destruct (wsgi_app req w) as [resp w']. cbn.
  destruct H as [-> | [(_ & _ & u & r & Hu & Hn & ->)
                      | (_ & _ & u & r & r' & Hr & Hc & ->)]].
  - constructor.
  - by constructor.
  - by econstructor.
Qed.

Lemma request_keeps_rows (req : request) (w : World) (u : Uuid.t) (r : Row) :
  table w !! u = Some r ->
  exists r', table (snd (wsgi_app req w)) !! u = Some r'
             /\ row_created_at r' = row_created_at r.
Proof.
  intros Hr. pose proof (request_effect req w) as H.
  destruct (wsgi_app req w) as [resp w']. cbn.
  destruct H as [-> | [(_ & _ & u0 & r0 & _ & Hn & ->)
                      | (_ & _ & u0 & r0 & r0' & Hr0 & Hc & ->)]].
  - eauto.
  - exists r. split; [| done]. rewrite lookup_insert_ne; [done |].
    intros ->. congruence.
  - destruct (decide (u0 = u)) as [-> | Hne].
    + exists r0'. rewrite lookup_insert_eq. split; [done |].
      unfold Uuid.t in *. congruence.
    + exists r. by rewrite lookup_insert_ne.
Qed.

(** X8: no sequence of requests removes a row or changes the created_at of
    a stored row: a row stored under an id is still stored under that id,
    with the same created_at, after the application has served any list of
    requests (DELETE requests included). *)
Theorem rows_survive_every_request (reqs : list request) (w : World)
    (u : Uuid.t) (r : Row) :
  table w !! u = Some r ->
  exists r', table (serve_all reqs w) !! u = Some r'
             /\ row_created_at r' = row_created_at r.
Proof.
  revert w r; induction reqs as [|req reqs IH]; intros w r Hr; [by eauto |].
  cbn [serve_all fold_left].
  destruct (request_keeps_rows req w u r Hr) as (r1 & Hr1 & Hc1).
  destruct (IH _ r1 Hr1) as (r' & Hr' & Hc').
  exists r'. split; [exact Hr' | congruence].
Qed.

Lemma rows_survive_every_request_witness :
  exists r',
    table (serve_all
             [mkRequest "DELETE" ("/items/" ++ Uuid.str Scenario.first_id) NotJson;
              mkRequest "DELETE" "/items/1" NotJson;
              mkRequest "PUT" ("/items/" ++ Uuid.str Scenario.first_id)
                (Json (VDict [("name", VStr "A2"); ("description", VNone)]))]
             Scenario.one_post) !! Scenario.first_id = Some r'
    /\ row_created_at r' = Some 0%Z.
Proof.
  refine (rows_survive_every_request _ Scenario.one_post Scenario.first_id
            (mkRow (VStr "A") (VStr "B") (Some 0%Z)) _).
  vm_compute; reflexivity.
Defined.

Lemma request_keeps_keys_in_range (req : request) (w : World) :
  keys_in_range (table w) -> keys_in_range (table (snd (wsgi_app req w))).
Proof.
  intros Hk. pose proof (request_effect req w) as H.
  destruct (wsgi_app req w) as [resp w']. cbn.
  destruct H as [-> | [(_ & _ & u0 & r0 & Hu0 & Hn & ->)
                      | (_ & _ & u0 & r0 & r0' & Hr0 & Hc & ->)]]; [done | |].
  - intros u r. destruct (decide (u0 = u)) as [-> | Hne]; [done |].
    rewrite lookup_insert_ne by done. apply Hk.
  - intros u r. destruct (decide (u0 = u)) as [-> | Hne]; [by eauto |].
    rewrite lookup_insert_ne by done. apply Hk.
Qed.

(** X9: every primary key the application stores is a 128-bit UUID value:
    starting from a table whose keys are in range (the empty table for
    one), the keys are in range after any list of requests. *)
Theorem keys_stay_in_range (reqs : list request) (w : World) :
  keys_in_range (table w) -> keys_in_range (table (serve_all reqs w)).
Proof.
  revert w; induction reqs as [|req reqs IH]; intros w Hk; [done |].
  cbn [serve_all fold_left]. by apply IH, request_keeps_keys_in_range.
Qed.

Lemma keys_stay_in_range_witness :
  keys_in_range
    (table (serve_all [Scenario.post_AB; Scenario.post_AB]
              (Scenario.empty_world Scenario.reliable))).
Proof.
  apply (keys_stay_in_range [Scenario.post_AB; Scenario.post_AB]
           (Scenario.empty_world Scenario.reliable)).
  intros u r H. cbn in H. by rewrite lookup_empty in H.
Defined.

(** X10: the delete route cannot delete. No DELETE request, whatever its
    path and whatever the database does, is answered 200, and none changes
    the table. The answer is one of 308, 404, 405 and 500 and carries no
    body of a view: every path but /items/<digits> is refused by the
    router, and for /items/<digits> the lookup of delete_item by an
    integer raises, so that the view never gets to its "not found" or to
    the deletion. *)
Theorem delete_request_never_succeeds (p : string) (b : payload) (w : World) :
  let '(resp, w') := wsgi_app (mkRequest "DELETE" p b) w in
  status resp <> 200%nat
  /\ (status resp = 308 \/ status resp = 404 \/ status resp = 405
      \/ status resp = 500)%nat
  /\ data resp = VNone
  /\ table w' = table w.
Proof.
  unfold wsgi_app, dispatch_request. cbn [path method].
  destruct (adapter_match p "DELETE") as [ep args| | | |] eqn:Hm; cbn;
    try (by auto 10).
  pose proof (view_method _ _ _ _ Hm eq_refl) as Hmeth.
  destruct ep; try (by destruct Hmeth); try discriminate Hmeth.
  destruct args as [|[u|n] [|? ?]]; cbn [call_view];
    try (unfold raise; cbn; by auto 10).
  destruct (delete_item_outcome n w) as (ctx & w' & -> & Ht & _). cbn.
  by auto 10.
Qed.

Lemma digits_no_slash (s : string) :
  all_chars is_digit s = true -> has_char is_slash s = false.
Proof.
  induction s as [|c s IH]; [done |]. cbn [all_chars has_char].
  intros [Hc Hs]%andb_prop. rewrite (IH Hs), orb_false_r.
  destruct c as [[] [] [] [] [] [] [] []]; by vm_compute in Hc |- *.
Qed.

(* a DELETE for /items/<digits> reaches delete_item, unless int() refuses
   the number of digits *)
Lemma route_delete_digits (seg : string) :
  regex_match IntegerConverter seg = true ->
  (N.of_nat (String.length seg) <= int_max_str_digits)%N ->
  adapter_match ("/items/" ++ seg) "DELETE"
  = Matched ep_delete_item [IdInt (parse_dec_from 0 seg)].
Proof.
  intros Hd Hl.
  assert (Hs : has_char is_slash seg = false).
  { apply digits_no_slash. by destruct seg. }
  rewrite RoutingFacts.adapter_match_item by done.
  rewrite RoutingFacts.find_rule_item, Hd.
  apply N.ltb_ge in Hl.
  destruct (regex_match UUIDConverter seg);
    cbn [String.eqb Ascii.eqb Bool.eqb orb convert_all to_python rule_endpoint];
    by rewrite Hl.
Qed.

(** X23: a DELETE for /items/<digits> always answers 500 and leaves a
    session open, on a healthy database too: delete_item opens a session
    and looks the integer up, the lookup raises (the database failed, or
    the server rejected the comparison of the UUID key with an integer),
    and the handler answers 500 without closing the session. The table is
    unchanged. The segment is taken to have at most 4300 digits, the
    longest int() converts. *)
Theorem delete_integer_id_leaves_session_open (seg : string) (b : payload)
    (w : World) :
  regex_match IntegerConverter seg = true ->
  (N.of_nat (String.length seg) <= int_max_str_digits)%N ->
  let '(resp, w') := wsgi_app (mkRequest "DELETE" ("/items/" ++ seg) b) w in
  resp = mkResponse 500 VNone
  /\ table w' = table w
  /\ log w' = (log w ++ [SessionOpened (next_sid w); Queried (next_sid w)])%list
  /\ open_sessions w' = (open_sessions w ++ [next_sid w])%list.
Proof.
  intros Hd Hl. unfold wsgi_app, dispatch_request. cbn [path method].
  rewrite route_delete_digits by done.
  cbn [String.eqb Ascii.eqb Bool.eqb call_view].
  destruct (delete_item_outcome (parse_dec_from 0 seg) w)
    as (ctx & w' & -> & Ht & Hlog).
  split; [done |]. split; [done |]. split; [done |].
  unfold open_sessions. rewrite Hlog, HandlerFacts.sessions_open_app. done.
Qed.

Lemma delete_integer_id_leaves_session_open_witness :
  let '(resp, w') :=
    wsgi_app (mkRequest "DELETE" "/items/123" NotJson) Scenario.one_post in
  resp = mkResponse 500 VNone
  /\ table w' = table Scenario.one_post
  /\ log w' = (log Scenario.one_post
               ++ [SessionOpened (next_sid Scenario.one_post);
                   Queried (next_sid Scenario.one_post)])%list
  /\ open_sessions w'
     = (open_sessions Scenario.one_post ++ [next_sid Scenario.one_post])%list.
Proof.
  refine (delete_integer_id_leaves_session_open "123" NotJson Scenario.one_post
            eq_refl _).
  vm_compute. discriminate.
Defined.

(** X11: with the database answering, GET /items/<id> for the text form of
    a UUID answers 200 with the stored row's id, title, description and
    created_at when a row is stored under that id, and 404 with an error
    message when none is; either way the table is unchanged. *)
Theorem get_by_id_found_or_404 (w : World) (u : Uuid.t) (b : payload) :
  Uuid.in_range u ->
  driver_fault (env w) (io_count w) = None ->
  let '(resp, w') := wsgi_app (mkRequest "GET" ("/items/" ++ Uuid.str u) b) w in
  table w' = table w
  /\ resp = match table w !! u with
            | Some r => mkResponse 200 (to_dict (load u r))
            | None => mkResponse 404 (VDict [("error", VStr "Item not found")])
            end.
Proof.
  intros Hu Hf. unfold wsgi_app, dispatch_request. cbn [path method].
  rewrite RoutingFacts.route_get_uuid by done.
  cbn [String.eqb Ascii.eqb Bool.eqb call_view].
  run. rewrite Hf. cbn. by destruct (table w !! u).
Qed.

Lemma get_by_id_found_or_404_witness :
  let '(resp, w') :=
    wsgi_app (mkRequest "GET" ("/items/" ++ Uuid.str Scenario.first_id) NotJson)
             (Scenario.empty_world Scenario.reliable) in
  table w' = ∅
  /\ resp = mkResponse 404 (VDict [("error", VStr "Item not found")]).
Proof.
  exact (get_by_id_found_or_404 (Scenario.empty_world Scenario.reliable)
           Scenario.first_id NotJson (UuidFacts.uuid4_in_range _) eq_refl).
Defined.

(** X12: with the database answering, GET /items answers 200 with a list
    that holds the dict of every stored row and nothing else, one entry
    per row (the empty list for an empty table), and leaves the table
    unchanged. The rows are listed as the table holds them. *)
Theorem list_returns_every_row (w : World) (b : payload) :
  driver_fault (env w) (io_count w) = None ->
  let '(resp, w') := wsgi_app (mkRequest "GET" "/items" b) w in
  status resp = 200%nat
  /\ table w' = table w
  /\ exists l, data resp = VList l
       /\ length l = size (table w)
       /\ (forall u r, table w !! u = Some r -> to_dict (load u r) ∈ l)
       /\ (forall d, d ∈ l ->
              exists u r, table w !! u = Some r /\ d = to_dict (load u r)).
Proof.
  intros Hf. unfold wsgi_app, dispatch_request. cbn [path method].
  change (adapter_match "/items" "GET") with (Matched ep_get_items []).
  cbn [String.eqb Ascii.eqb Bool.eqb call_view].
  run. rewrite Hf. cbn. split; [done |]. split; [done |].
  eexists. split; [reflexivity |]. split; [| split].
  - by rewrite !length_fmap, length_map_to_list.
  - intros u r Hr. apply list_elem_of_fmap. exists (load u r). split; [done |].
    apply list_elem_of_fmap. exists (u, r). split; [done |].
    by apply elem_of_map_to_list.
  - intros d (e & -> & He)%list_elem_of_fmap.
    apply list_elem_of_fmap in He as ([u r] & -> & Hur).
    apply elem_of_map_to_list in Hur. eauto.
Qed.

Lemma list_returns_every_row_witness :
  table Scenario.one_post !! Scenario.first_id
  = Some (mkRow (VStr "A") (VStr "B") (Some 0%Z))
  /\ let '(resp, w') :=
       wsgi_app (mkRequest "GET" "/items" NotJson) Scenario.one_post in
     status resp = 200%nat
     /\ table w' = table Scenario.one_post
     /\ exists l, data resp = VList l
          /\ length l = size (table Scenario.one_post)
          /\ (forall u r, table Scenario.one_post !! u = Some r ->
                  to_dict (load u r) ∈ l)
          /\ (forall d, d ∈ l ->
                 exists u r, table Scenario.one_post !! u = Some r
                             /\ d = to_dict (load u r)).
Proof.
  split; [vm_compute; reflexivity |].
  apply (list_returns_every_row Scenario.one_post NotJson).
  vm_compute; reflexivity.
Defined.

(** X13: with the database answering, PUT /items/<id> for an id under which
    no row is stored answers 404 whatever JSON value the body carries, a
    body without name or description included, and changes nothing in the
    table: the existence check comes before the body is read. *)
Theorem update_unknown_id_is_404 (w : World) (u : Uuid.t) (v : value) :
  Uuid.in_range u ->
  driver_fault (env w) (io_count w) = None ->
  table w !! u = None ->
  let '(resp, w') :=
    wsgi_app (mkRequest "PUT" ("/items/" ++ Uuid.str u) (Json v)) w in
  resp = mkResponse 404 (VDict [("error", VStr "Item not found")])
  /\ table w' = table w.
Proof.
  intros Hu Hf Hn. unfold wsgi_app, dispatch_request. cbn [path method].
  rewrite RoutingFacts.route_put_uuid by done.
  cbn [String.eqb Ascii.eqb Bool.eqb call_view].
  run. rewrite Hf. cbn. by rewrite Hn.
Qed.

Lemma update_unknown_id_is_404_witness :
  let '(resp, w') :=
    wsgi_app (mkRequest "PUT" ("/items/" ++ Uuid.str Scenario.first_id)
                (Json VNone))
             (Scenario.empty_world Scenario.reliable) in
  resp = mkResponse 404 (VDict [("error", VStr "Item not found")])
  /\ table w' = ∅.
Proof.
  exact (update_unknown_id_is_404 (Scenario.empty_world Scenario.reliable)
           Scenario.first_id VNone (UuidFacts.uuid4_in_range _) eq_refl
           (lookup_empty _)).
Defined.

(** X14: a create or update request whose body is not JSON is refused by
    request.json before the view's try block: 415 when the content type is
    not JSON, 400 when the body does not parse. No session is opened and
    the world is unchanged; for an update this holds whether or not a row
    is stored under the id. *)
Theorem non_json_body_is_refused (w : World) (u : Uuid.t) (b : payload) :
  Uuid.in_range u ->
  b = NotJson \/ b = Malformed ->
  let code := match b with NotJson => 415%nat | _ => 400%nat end in
  wsgi_app (mkRequest "POST" "/items" b) w = (mkResponse code VNone, w)
  /\ wsgi_app (mkRequest "PUT" ("/items/" ++ Uuid.str u) b) w
     = (mkResponse code VNone, w).
Proof.
  intros Hu Hb code. subst code. split.
  - unfold wsgi_app, dispatch_request. cbn [path method].
    change (adapter_match "/items" "POST") with (Matched ep_create_item []).
    cbn [String.eqb Ascii.eqb Bool.eqb call_view].
    by destruct Hb as [-> | ->].
  - unfold wsgi_app, dispatch_request. cbn [path method].
    rewrite RoutingFacts.route_put_uuid by done.
    cbn [String.eqb Ascii.eqb Bool.eqb call_view].
    by destruct Hb as [-> | ->].
Qed.

Lemma non_json_body_is_refused_witness :
  let w := Scenario.empty_world Scenario.reliable in
  wsgi_app (mkRequest "POST" "/items" NotJson) w = (mkResponse 415 VNone, w)
  /\ wsgi_app (mkRequest "PUT" ("/items/" ++ Uuid.str Scenario.first_id) NotJson)
       w = (mkResponse 415 VNone, w).
Proof.
  exact (non_json_body_is_refused (Scenario.empty_world Scenario.reliable)
           Scenario.first_id NotJson (UuidFacts.uuid4_in_range _)
           (or_introl eq_refl)).
Defined.

(** X15: a JSON body that is not an object (null, a number, a string, a
    list) sent to the create route is answered 500: subscripting it raises
    TypeError inside the try block. No session is opened and the world is
    unchanged. *)
Theorem non_object_body_is_500 (w : World) (v : value) :
  not_an_object v ->
  wsgi_app (mkRequest "POST" "/items" (Json v)) w = (mkResponse 500 VNone, w).
Proof.
  intros Hv. unfold wsgi_app, dispatch_request. cbn [path method].
  change (adapter_match "/items" "POST") with (Matched ep_create_item []).
  cbn [String.eqb Ascii.eqb Bool.eqb call_view].
  run. by destruct v.
Qed.

Lemma non_object_body_is_500_witness :
  wsgi_app (mkRequest "POST" "/items" (Json (VList [VStr "A"; VStr "B"])))
           (Scenario.empty_world Scenario.reliable)
  = (mkResponse 500 VNone, Scenario.empty_world Scenario.reliable).
Proof.
  exact (non_object_body_is_500 (Scenario.empty_world Scenario.reliable)
           (VList [VStr "A"; VStr "B"]) I).
Defined.

(** X16: an update followed by a get returns what was written: after
    PUT /items/<id> for a stored row, with a body whose name and
    description are strings without a NUL character (which the driver
    refuses), GET /items/<id> answers 200 with the same id, the new title
    and description, and the created_at the row had before. The database
    is taken to answer the three round trips. *)
Theorem update_then_get_round_trip (w : World) (u : Uuid.t) (r : Row)
    (d : list (string * value)) (a b : string) :
  Uuid.in_range u ->
  table w !! u = Some r ->
  dict_get d "name" = Some (VStr a) ->
  dict_get d "description" = Some (VStr b) ->
  has_char is_nul a = false ->
  has_char is_nul b = false ->
  driver_fault (env w) (io_count w) = None ->
  driver_fault (env w) (S (io_count w)) = None ->
  driver_fault (env w) (S (S (io_count w))) = None ->
  let '(updated, w1) :=
    wsgi_app (mkRequest "PUT" ("/items/" ++ Uuid.str u) (Json (VDict d))) w in
  let '(fetched, _) :=
    wsgi_app (mkRequest "GET" ("/items/" ++ Uuid.str u) NotJson) w1 in
  status updated = 200%nat
  /\ fetched = mkResponse 200
                 (to_dict (load u (mkRow (VStr a) (VStr b) (row_created_at r)))).
Proof.
  intros Hu Hr Hn Hd Ha Hb Hf1 Hf2 Hf3.
  destruct (HandlerFacts.update_item_stores w u r "PUT" ("/items/" ++ Uuid.str u)
              d _ _ Hr Hn Hd (HandlerFacts.adapt_str a Ha)
              (HandlerFacts.adapt_str b Hb) Hf1 Hf2)
    as (w1 & Hc & Ht & He & Hio).
  unfold wsgi_app at 1, dispatch_request. cbn [path method].
  rewrite RoutingFacts.route_put_uuid by done.
  cbn [String.eqb Ascii.eqb Bool.eqb call_view]. rewrite Hc.
  assert (Hrow : table w1 !! u
                 = Some (mkRow (VStr a) (VStr b) (row_created_at r))).
  { rewrite Ht. apply lookup_insert_eq. }
  assert (Hf : driver_fault (env w1) (io_count w1) = None)
    by (by rewrite He, Hio).
  destruct (HandlerFacts.get_item_found w1 u _ Hf Hrow) as (w2 & Hg).
  unfold wsgi_app, dispatch_request. cbn [path method].
  rewrite RoutingFacts.route_get_uuid by done.
  cbn [String.eqb Ascii.eqb Bool.eqb call_view]. rewrite Hg.
  done.
Qed.

Lemma update_then_get_round_trip_witness :
  let '(updated, w1) :=
    wsgi_app (mkRequest "PUT" ("/items/" ++ Uuid.str Scenario.first_id)
                (Json (VDict [("name", VStr "A2"); ("description", VStr "B2")])))
             Scenario.one_post in
  let '(fetched, _) :=
    wsgi_app (mkRequest "GET" ("/items/" ++ Uuid.str Scenario.first_id) NotJson)
             w1 in
  status updated = 200%nat
  /\ fetched = mkResponse 200
                 (to_dict (load Scenario.first_id
                             (mkRow (VStr "A2") (VStr "B2") (Some 0%Z)))).
Proof.
  refine (update_then_get_round_trip Scenario.one_post Scenario.first_id
            (mkRow (VStr "A") (VStr "B") (Some 0%Z))
            [("name", VStr "A2"); ("description", VStr "B2")] "A2" "B2"
            (UuidFacts.uuid4_in_range _) _ eq_refl eq_refl eq_refl eq_refl
            eq_refl eq_refl eq_refl).
  vm_compute; reflexivity.
Defined.

(** X17: the healthcheck answers 200 exactly when the connection and the
    SELECT 1 both go through, and 500 otherwise; it never reads or writes
    the table and opens no session, and a connection it obtained is closed
    again before it returns, also when the statement fails. *)
Theorem healthcheck_outcome (w : World) (b : payload) :
  let '(resp, w') := wsgi_app (mkRequest "GET" "/healthcheck" b) w in
  (status resp = 200%nat
   <-> driver_fault (env w) (io_count w) = None
       /\ driver_fault (env w) (S (io_count w)) = None)
  /\ (status resp = 200%nat \/ status resp = 500%nat)
  /\ table w' = table w
  /\ (log w' = log w
      \/ log w' = (log w ++ [Connected; ConnectionClosed])%list
      \/ log w' = (log w ++ [Connected; Executed "SELECT 1";
                             ConnectionClosed])%list).
Proof.
  unfold wsgi_app, dispatch_request. cbn [path method].
  change (adapter_match "/healthcheck" "GET")
    with (Matched ep_perform_healthcheck []).
  cbn [String.eqb Ascii.eqb Bool.eqb call_view].
  run.
  destruct (driver_fault (env w) (io_count w)) as [[]|]; cbn;
    try (split; [split; [discriminate | intros [? ?]; discriminate] | auto]).
  destruct (driver_fault (env w) (S (io_count w))) as [[]|]; cbn;
    try (split; [split; [discriminate | intros [? ?]; discriminate] |];
         split; [auto |]; split; [done |]; right; left;
         by rewrite <- !app_assoc).
  split; [done |]. split; [auto |]. split; [done |]. right. right.
  by rewrite <- !app_assoc.
Qed.

(* --- sessions ---------------------------------------------------------- *)

Lemma balanced_session (s : nat) (e : event) (l : list event) :
  session_neutral e -> balanced l ->
  balanced (SessionOpened s :: e :: SessionClosed s :: l).
Proof.
  unfold balanced. intros He Hl. destruct e; try done; cbn;
    (destruct (decide (s <> s)) as [Hne | _]; [by destruct Hne | exact Hl]).
Qed.

Lemma balanced_neutral (e : event) (l : list event) :
  session_neutral e -> balanced l -> balanced (e :: l).
Proof. unfold balanced. intros He Hl. by destruct e. Qed.

Ltac closes :=
  eexists; split; [by rewrite <- ?app_assoc |]; left; cbn [app];
  repeat first [ apply balanced_session; [exact I |]
               | apply balanced_neutral; [exact I |] ];
  reflexivity.

Ltac leaks :=
  eexists; split; [by rewrite <- ?app_assoc |]; right; cbn [app];
  split; [reflexivity |]; unfold aborted_500; eauto.

Ltac unchanged := exists []; split; [by rewrite app_nil_r | by left].

Lemma closes_or_leaks_refl (w : World) (failed : Prop) :
  closes_or_leaks w w failed.
Proof. unchanged. Qed.

Lemma get_items_sessions (w : World) :
  closes_or_leaks w (snd (get_items w))
    (is_Some (driver_fault (env w) (io_count w))
     /\ aborted_500 (fst (get_items w))).
Proof.
  unfold closes_or_leaks. run.
  destruct (driver_fault (env w) (io_count w)) eqn:Hf; cbn; [leaks | closes].
Qed.

Lemma get_item_sessions (u : Uuid.t) (w : World) :
  closes_or_leaks w (snd (get_item u w))
    (is_Some (driver_fault (env w) (io_count w))
     /\ aborted_500 (fst (get_item u w))).
Proof.
  unfold closes_or_leaks. run.
  destruct (driver_fault (env w) (io_count w)) eqn:Hf; cbn; [leaks |].
  destruct (table w !! u); cbn; closes.
Qed.

Lemma perform_healthcheck_sessions (w : World) :
  closes_or_leaks w (snd (perform_healthcheck w)) False.
Proof.
  unfold closes_or_leaks. run.
  destruct (driver_fault (env w) (io_count w)) as [[]|]; cbn; try unchanged.
  destruct (driver_fault (env w) (S (io_count w))) as [[]|]; cbn; closes.
Qed.

Lemma create_item_sessions (req : request) (w : World) :
  closes_or_leaks w (snd (create_item req w)) False.
Proof.
  unfold closes_or_leaks. run. destruct (body req) as [| |v]; cbn; try unchanged.
  destruct (getitem v "name") as [name|]; cbn; [| unchanged].
  destruct (getitem v "description") as [description|]; cbn; [| unchanged].
  rewrite ?lookup_insert_eq. cbn.
  destruct (driver_fault (env w) (io_count w)); cbn;
    rewrite ?lookup_insert_eq; cbn; [closes |].
  run_flush.
  destruct (adapt name); cbn; rewrite ?lookup_insert_eq; cbn.
  { destruct (driver_fault (env w) (S (io_count w))); cbn; closes. }
  destruct (adapt description); cbn; rewrite ?lookup_insert_eq; cbn.
  { destruct (driver_fault (env w) (S (io_count w))); cbn; closes. }
  destruct (table w !! Uuid.uuid4 (urandom (env w) (rand_count w))); cbn;
    rewrite ?lookup_insert_eq; cbn.
  { destruct (driver_fault (env w) (S (io_count w))); cbn; closes. }
  closes.
Qed.

Lemma update_item_sessions (u : Uuid.t) (req : request) (w : World) :
  closes_or_leaks w (snd (update_item u req w))
    (is_Some (driver_fault (env w) (io_count w))
     /\ aborted_500 (fst (update_item u req w))).
Proof.
  unfold closes_or_leaks. run. destruct (body req) as [| |v]; cbn; try unchanged.
  destruct (driver_fault (env w) (io_count w)) eqn:Hf; cbn; [leaks |].
  destruct (table w !! u) as [r|] eqn:Hr; cbn; [| closes].
  destruct (getitem v "name") as [name|]; cbn; [| closes].
  destruct (getitem v "description") as [description|]; cbn; [| closes].
  rewrite ?lookup_insert_eq. cbn.
  destruct (driver_fault (env w) (S (io_count w))); cbn;
    rewrite ?lookup_insert_eq; cbn; [closes |].
  run_flush.
  unfold title_changed, description_changed, updated_row, title_changed,
    description_changed; cbn.
  destruct (compare_values name (row_title r)),
    (compare_values description (row_description r)); cbn;
    destruct (adapt name), (adapt description); cbn;
    rewrite ?Hr; cbn; rewrite ?lookup_insert_eq; cbn;
    try (destruct (driver_fault (env w) (S (S (io_count w)))); cbn);
    closes.
Qed.

(** X18: a request leaves a session open only when the lookup of a view
    fails. For every request, the events it adds to the log either leave
    no session open (every session opened by a view, by save or by delete
    was closed), or are exactly the opening of one session and its query;
    in the latter case the request is answered 500, and either the
    database failed that query or the request is a DELETE, whose lookup
    by an integer the server rejects. *)
Theorem session_leaks_only_on_query_failure (req : request) (w : World) :
  let '(resp, w') := wsgi_app req w in
  closes_or_leaks w w'
    (status resp = 500%nat
     /\ (is_Some (driver_fault (env w) (io_count w))
         \/ method req = "DELETE")).
Proof.
  unfold wsgi_app, dispatch_request.
  destruct (adapter_match (path req) (method req)) as [ep args| | | |] eqn:Hm;
    cbn; try apply closes_or_leaks_refl.
  destruct (String.eqb (method req) "OPTIONS") eqn:Ho; cbn;
    [apply closes_or_leaks_refl |].
  pose proof (view_method _ _ _ _ Hm Ho) as Hmeth.
  assert (Hview : forall (view : M response) (failed : Prop),
            closes_or_leaks w (snd (view w)) (failed /\ aborted_500 (fst (view w))) ->
            (failed -> is_Some (driver_fault (env w) (io_count w))
                       \/ method req = "DELETE") ->
            let '(resp, w') :=
              match view w with
              | (Return r, w') => (r, w')
              | (Raise (Exn (HTTPException code) _), w') =>
                  (mkResponse code VNone, w')
              | (Raise _, w') => (mkResponse 500 VNone, w')
              end in
            closes_or_leaks w w'
              (status resp = 500%nat
               /\ (is_Some (driver_fault (env w) (io_count w))
                   \/ method req = "DELETE"))).
  { intros view failed (l & Hl & Hcase) Hwhy.
    destruct (view w) as [o w']. cbn in Hl, Hcase.
    assert (Hgoal : forall resp,
              (forall ctx, o = Raise (Exn (HTTPException 500) ctx) ->
                           status resp = 500%nat) ->
              closes_or_leaks w w'
                (status resp = 500%nat
                 /\ (is_Some (driver_fault (env w) (io_count w))
                     \/ method req = "DELETE"))).
    { intros resp Hresp. exists l. split; [done |].
      destruct Hcase as [Hb | (-> & Hfail & ctx & Ho')]; [by left | right].
      split; [done |]. split; [by eapply Hresp | by apply Hwhy]. }
    destruct o as [r|[[] ctx]]; apply Hgoal; intros ctx' [=]; by subst. }
  destruct ep; destruct args as [|[u|n] [|? ?]]; cbn [call_view];
    try (unfold raise; cbn; by apply closes_or_leaks_refl).
  - apply (Hview perform_healthcheck False); [| done].
    destruct (perform_healthcheck_sessions w) as (l & Hl & [Hb | [_ []]]).
    exists l. split; [done | by left].
  - apply (Hview get_items _ (get_items_sessions w)). auto.
  - apply (Hview (get_item u) _ (get_item_sessions u w)). auto.
  - apply (Hview (create_item req) False); [| done].
    destruct (create_item_sessions req w) as (l & Hl & [Hb | [_ []]]).
    exists l. split; [done | by left].
  - apply (Hview (update_item u req) _ (update_item_sessions u req w)). auto.
  - apply (Hview (delete_item n) True); [| auto].
    destruct (delete_item_outcome n w) as (ctx & w' & He & _ & Hlog).
    rewrite He. cbn. exists [SessionOpened (next_sid w); Queried (next_sid w)].
    split; [done |]. right. split; [done |]. split; [done |].
    by exists ctx.
Qed.

Lemma session_leaks_only_on_query_failure_witness :
  let '(resp, w') :=
    wsgi_app (mkRequest "DELETE" "/items/123" NotJson) Scenario.one_post in
  exists l,
    log w' = (log Scenario.one_post ++ l)%list
    /\ l = [SessionOpened (next_sid Scenario.one_post);
            Queried (next_sid Scenario.one_post)]
    /\ ~ balanced l
    /\ status resp = 500%nat.
Proof.
  pose proof (session_leaks_only_on_query_failure
                (mkRequest "DELETE" "/items/123" NotJson) Scenario.one_post)
    as H.
  destruct (wsgi_app (mkRequest "DELETE" "/items/123" NotJson) Scenario.one_post)
    as [resp w'] eqn:E.
  destruct H as (l & Hl & Hcase).
  assert (Hlog : log w' = (log Scenario.one_post
                           ++ [SessionOpened (next_sid Scenario.one_post);
                               Queried (next_sid Scenario.one_post)])%list).
  { apply (f_equal snd) in E. cbn in E. subst w'. vm_compute. reflexivity. }
  rewrite Hlog in Hl. apply app_inv_head in Hl. subst l.
  eexists. split; [exact Hlog |]. split; [reflexivity |].
  split; [vm_compute; discriminate |].
  destruct Hcase as [Hb | (_ & Hs & _)]; [| exact Hs].
  vm_compute in Hb. discriminate Hb.
Defined.

End ViewFacts.

(* ===================================================================== *)
(* 9. The URL converters and to_dict                                     *)
(* ===================================================================== *)

Module ConverterFacts.
Import Text TextFacts Py Db Main Frame.

Lemma take_hex_split (n : nat) (s rest : string) :
  take_hex n s = Some rest ->
  exists a, s = a ++ rest /\ String.length a = n /\ all_chars is_hex a = true.
Proof.
  revert s; induction n as [|n IH]; intros s; cbn [take_hex].
  - intros [= ->]. by exists EmptyString.
  - destruct s as [|c s]; [done |]. destruct (is_hex c) eqn:Hc; [| done].
    intros (a & -> & <- & Ha)%IH. exists (String c a). cbn. by rewrite Hc, Ha.
Qed.

(* a segment the UUID regex accepts: without its hyphens it is a string of
   hexadecimal digits, as many as the groups hold *)
Lemma match_groups_hex (sizes : list nat) (s : string) :
  match_groups sizes s = true ->
  all_chars is_hex (remove_hyphens s) = true
  /\ String.length (remove_hyphens s) = sum_list sizes.
Proof.
  revert s; induction sizes as [|n sizes IH]; intros s; [done |].
  cbn [match_groups]. destruct (take_hex n s) as [rest|] eqn:Ht; [| done].
  apply take_hex_split in Ht as (a & -> & <- & Ha).
  rewrite remove_hyphens_append, (remove_hyphens_hex a Ha).
  rewrite all_chars_append, length_append, Ha. cbn [sum_list andb].
  destruct sizes as [|n' sizes].
  - destruct rest; [| done]. intros _. cbn. split; [done | lia].
  - destruct rest as [|c rest]; [done |].
    intros [Hc Hm]%andb_prop. cbn [remove_hyphens]. rewrite Hc.
    apply IH in Hm as [-> ->]. done.
Qed.

Lemma hex_value_bound (c : ascii) :
  is_hex c = true -> exists d, hex_value c = Some d /\ (d < 16)%N.
Proof.
  destruct c as [[] [] [] [] [] [] [] []]; vm_compute; try discriminate;
    intros _; eexists; (split; [reflexivity | reflexivity]).
Qed.

Lemma parse_hex_from_bound (acc : N) (s : string) :
  all_chars is_hex s = true ->
  exists v, parse_hex_from acc s = Some v
            /\ (v < (acc + 1) * 16 ^ N.of_nat (String.length s))%N.
Proof.
  revert acc; induction s as [|c s IH]; intros acc.
  - intros _. exists acc. cbn. split; [done | lia].
  - cbn [all_chars parse_hex_from String.length].
    intros [Hc Hs]%andb_prop.
    destruct (hex_value_bound c Hc) as (d & -> & Hd).
    destruct (IH (16 * acc + d)%N Hs) as (v & -> & Hv).
    exists v. split; [done |].
    rewrite Nat2N.inj_succ, N.pow_succ_r'.
    set (P := (16 ^ N.of_nat (String.length s))%N) in *. nia.
Qed.

(* uuid.UUID never raises on a segment that the UUID regex accepted *)
Lemma of_string_matched (seg : string) :
  regex_match UUIDConverter seg = true ->
  exists u, Uuid.of_string seg = Some u /\ Uuid.in_range u.
Proof.
  intros [Hh Hl]%match_groups_hex. unfold Uuid.of_string. rewrite Hl. cbn.
  destruct (parse_hex_from_bound 0 _ Hh) as (v & Hv & Hb).
  rewrite Hl in Hb. exists v. split; [| exact Hb].
  unfold parse_hex. destruct (remove_hyphens seg); [done | exact Hv].
Qed.

(** X19: routing of /items/<seg> is typed. For every method and every
    segment without a slash the router does one of three things. It
    refuses the request with 404 or 405, exactly when the segment does not
    parse as the id of an item route serving the method. It hands the view
    the argument it is written for: a UUID within 128 bits for get_item
    and update_item, an integer for delete_item. Or the conversion of the
    accepted segment fails, which happens in one case only: a segment of
    more than 4300 digits, which int() refuses; uuid.UUID never fails on a
    segment the UUID pattern accepted. The router never redirects such a
    path. *)
Theorem item_routing_is_typed (m seg : string) :
  has_char is_slash seg = false ->
  match adapter_match ("/items/" ++ seg) m with
  | Matched ep args =>
      valid_item_id m seg = true
      /\ view_args_ok ep args
      /\ (ep = ep_get_item \/ ep = ep_update_item \/ ep = ep_delete_item)
  | ConversionError =>
      regex_match IntegerConverter seg = true
      /\ (int_max_str_digits < N.of_nat (String.length seg))%N
  | RequestRedirect _ => False
  | NotFound | MethodNotAllowed => valid_item_id m seg = false
  end.
Proof.
  intros Hs. rewrite RoutingFacts.adapter_match_item by done.
  rewrite RoutingFacts.valid_item_id_spec, RoutingFacts.find_rule_item.
  destruct (regex_match UUIDConverter seg) eqn:HU,
    (regex_match IntegerConverter seg) eqn:HI,
    (String.eqb m "GET") eqn:E1, (String.eqb m "HEAD") eqn:E2,
    (String.eqb m "OPTIONS") eqn:E3, (String.eqb m "PUT") eqn:E4,
    (String.eqb m "DELETE") eqn:E5;
    cbn [orb andb]; cbv iota;
    rewrite ?RoutingFacts.find_rule_item, ?HU, ?HI, ?E1, ?E2, ?E3, ?E4, ?E5;
    cbn [orb andb convert_all to_python rule_endpoint app]; cbv iota;
    try done;
    try (destruct (of_string_matched seg HU) as (u & -> & Hu); cbn; by auto);
    destruct (N.ltb_spec int_max_str_digits (N.of_nat (String.length seg)));
    cbn; by auto.
Qed.

Lemma item_routing_is_typed_witness :
  (valid_item_id "DELETE" "123" = true
   /\ view_args_ok ep_delete_item [IdInt 123]
   /\ (ep_delete_item = ep_get_item \/ ep_delete_item = ep_update_item
       \/ ep_delete_item = ep_delete_item))
  /\ (valid_item_id "GET" (Uuid.str Scenario.first_id) = true
      /\ view_args_ok ep_get_item [IdUuid Scenario.first_id]
      /\ (ep_get_item = ep_get_item \/ ep_get_item = ep_update_item
          \/ ep_get_item = ep_delete_item)).
Proof.
  split.
  - exact (item_routing_is_typed "DELETE" "123" eq_refl).
  - pose proof (item_routing_is_typed "GET" (Uuid.str Scenario.first_id)
                  (UuidFacts.no_slash_str _)) as H.
    rewrite RoutingFacts.route_get_uuid in H
      by apply UuidFacts.uuid4_in_range.
    exact H.
Defined.

(* --- to_dict ----------------------------------------------------------- *)

Lemma str_injective (u u' : Uuid.t) :
  Uuid.in_range u -> Uuid.in_range u' -> Uuid.str u = Uuid.str u' -> u = u'.
Proof.
  intros Hu Hu' H. apply (f_equal Uuid.of_string) in H.
  rewrite !UuidFacts.of_string_str in H by done. by injection H.
Qed.

(** X20: to_dict loses nothing of a stored row: if two loaded instances
    with UUID ids have the same dict, they have the same id, title,
    description and created_at. In particular the id field, str(self.id),
    identifies the row. *)
Theorem to_dict_injective (u u' : Uuid.t) (r r' : Row) :
  Uuid.in_range u -> Uuid.in_range u' ->
  to_dict (load u r) = to_dict (load u' r') ->
  u = u' /\ r = r'.
Proof.
  intros Hu Hu' H. destruct r as [t d c], r' as [t' d' c'].
  assert (Hid : Uuid.str u = Uuid.str u').
  { exact (f_equal (fun v => match v with
                             | VDict ((_, VStr s) :: _) => s
                             | _ => EmptyString
                             end) H). }
  assert (Ht : t = t').
  { exact (f_equal (fun v => match v with
                             | VDict (_ :: (_, x) :: _) => x
                             | _ => VNone
                             end) H). }
  assert (Hd : d = d').
  { exact (f_equal (fun v => match v with
                             | VDict (_ :: _ :: (_, x) :: _) => x
                             | _ => VNone
                             end) H). }
  assert (Hc : match c with Some ts => VDatetime ts | None => VNone end
               = match c' with Some ts => VDatetime ts | None => VNone end).
  { exact (f_equal (fun v => match v with
                             | VDict (_ :: _ :: _ :: (_, x) :: _) => x
                             | _ => VNone
                             end) H). }
  split; [by apply str_injective |]. subst t' d'.
  destruct c, c'; try discriminate Hc; [| done]. by injection Hc as ->.
Qed.

Lemma to_dict_injective_witness :
  Scenario.first_id = Scenario.first_id
  /\ mkRow (VStr "A") (VStr "B") (Some 0%Z) = mkRow (VStr "A") (VStr "B") (Some 0%Z).
Proof.
  exact (to_dict_injective Scenario.first_id Scenario.first_id
           (mkRow (VStr "A") (VStr "B") (Some 0%Z))
           (mkRow (VStr "A") (VStr "B") (Some 0%Z))
           (UuidFacts.uuid4_in_range _) (UuidFacts.uuid4_in_range _) eq_refl).
Defined.

End ConverterFacts.

(* ===================================================================== *)
(* 10. Creating rows                                                     *)
(* ===================================================================== *)

Module CreateFacts.
Import Text TextFacts Py Db Main Frame.

Ltac run := HandlerFacts.run.

Ltac run_flush := PersistenceFacts.run_flush.

(* what create_item raises: the 415 and 400 of request.json, else 500 *)
Lemma create_item_raises (req : request) (w w' : World) (x : exn) :
  create_item req w = (Raise x, w') ->
  exists code, exn_cls x = HTTPException code
               /\ (code = 500 \/ code = 415 \/ code = 400)%nat.
Proof.
  run. destruct (body req) as [| |v]; cbn;
    try (intros [= <- _]; eexists; split; [reflexivity | auto]).
  destruct (getitem v "name") as [name|]; cbn;
    [| intros [= <- _]; eexists; split; [reflexivity | auto]].
  destruct (getitem v "description") as [description|]; cbn;
    [| intros [= <- _]; eexists; split; [reflexivity | auto]].
  rewrite ?lookup_insert_eq. cbn.
  destruct (driver_fault (env w) (io_count w)); cbn;
    rewrite ?lookup_insert_eq; cbn;
    [intros [= <- _]; eexists; split; [reflexivity | auto] |].
  run_flush.
  destruct (adapt name); cbn; rewrite ?lookup_insert_eq; cbn.
  { destruct (driver_fault (env w) (S (io_count w))); cbn;
      intros [= <- _]; eexists; split; try reflexivity; auto. }
  destruct (adapt description); cbn; rewrite ?lookup_insert_eq; cbn.
  { destruct (driver_fault (env w) (S (io_count w))); cbn;
      intros [= <- _]; eexists; split; try reflexivity; auto. }
  destruct (table w !! Uuid.uuid4 (urandom (env w) (rand_count w))); cbn;
    rewrite ?lookup_insert_eq; cbn; [| done].
  destruct (driver_fault (env w) (S (io_count w))); cbn;
    intros [= <- _]; eexists; split; try reflexivity; auto.
Qed.

(* what update_item raises: the 415 and 400 of request.json, else 500 *)
Lemma update_item_raises (u : Uuid.t) (req : request) (w w' : World) (x : exn) :
  update_item u req w = (Raise x, w') ->
  exists code, exn_cls x = HTTPException code
               /\ (code = 500 \/ code = 415 \/ code = 400)%nat.
Proof.
  run. destruct (body req) as [| |v]; cbn;
    try (intros [= <- _]; eexists; split; [reflexivity | auto]).
  destruct (driver_fault (env w) (io_count w)); cbn;
    [intros [= <- _]; eexists; split; [reflexivity | auto] |].
  destruct (table w !! u) as [r|] eqn:Hr; cbn; [| done].
  destruct (getitem v "name") as [name|]; cbn;
    [| intros [= <- _]; eexists; split; [reflexivity | auto]].
  destruct (getitem v "description") as [description|]; cbn;
    [| intros [= <- _]; eexists; split; [reflexivity | auto]].
  rewrite ?lookup_insert_eq. cbn.
  destruct (driver_fault (env w) (S (io_count w))); cbn;
    rewrite ?lookup_insert_eq; cbn;
    [intros [= <- _]; eexists; split; [reflexivity | auto] |].
  run_flush.
  unfold title_changed, description_changed, updated_row, title_changed,
    description_changed; cbn.
  destruct (compare_values name (row_title r)),
    (compare_values description (row_description r)); cbn;
    destruct (adapt name), (adapt description); cbn;
    rewrite ?Hr; cbn; rewrite ?lookup_insert_eq; cbn;
    try (destruct (driver_fault (env w) (S (S (io_count w)))); cbn);
    try done;
    intros [= <- _]; eexists; split; try reflexivity; auto.
Qed.

(* no other view answers 201 *)
Lemma other_views_not_201 (ep : endpoint) (args : list ident) (req : request)
    (w : World) :
  ep <> ep_create_item ->
  status (fst (match call_view ep args req w with
               | (Return r, w') => (r, w')
               | (Raise (Exn (HTTPException code) _), w') =>
                   (mkResponse code VNone, w')
               | (Raise _, w') => (mkResponse 500 VNone, w')
               end)) <> 201%nat.
Proof.
  intros Hep.
  destruct ep; try done; destruct args as [|[u|n] [|? ?]]; cbn [call_view];
    try (unfold raise; cbn; done).
  - run. destruct (driver_fault (env w) (io_count w)) as [[]|]; cbn; try done.
    by destruct (driver_fault (env w) (S (io_count w))) as [[]|].
  - run. by destruct (driver_fault (env w) (io_count w)).
  - run. destruct (driver_fault (env w) (io_count w)); cbn; [done |].
    by destruct (table w !! u).
  - pose proof (ViewFacts.update_item_effect u req w) as H.
    pose proof (update_item_raises u req w) as Hraise.
    destruct (update_item u req w) as [[resp|[[] ctx]] w']; cbn; try done.
    + destruct H as [[-> _] | [-> _]]; done.
    + destruct (Hraise w' _ eq_refl) as (code' & Hc & Hcode).
      cbn in Hc. injection Hc as ->. lia.
  - destruct (ViewFacts.delete_item_outcome n w) as (ctx & w' & -> & _). done.
Qed.

(** X21: a 201 always means one new row. Whenever a request is answered
    201 it was a POST, and the table after it is the table before it with
    exactly one row added, under a UUID within 128 bits that was not
    stored before; no stored row is overwritten and the number of rows
    grows by one. *)
Theorem created_means_one_new_row (req : request) (w : World) :
  status (fst (wsgi_app req w)) = 201%nat ->
  method req = "POST"
  /\ exists u r,
       Uuid.in_range u /\ table w !! u = None
       /\ table (snd (wsgi_app req w)) = <[u := r]> (table w)
       /\ size (table (snd (wsgi_app req w))) = S (size (table w)).
Proof.
  unfold wsgi_app, dispatch_request.
  destruct (adapter_match (path req) (method req)) as [ep args| | | |] eqn:Hm;
    cbn; try done.
  destruct (String.eqb (method req) "OPTIONS") eqn:Ho; cbn; [done |].
  pose proof (ViewFacts.view_method _ _ _ _ Hm Ho) as Hmeth.
  assert (Hep : ep = ep_create_item \/ ep <> ep_create_item)
    by (destruct ep; (by left) || (by right)).
  destruct Hep as [-> | Hne].
  - destruct args as [|? ?]; cbn [call_view];
      [| unfold raise; cbn; done].
    pose proof (ViewFacts.create_item_effect req w) as He.
    pose proof (create_item_raises req w) as Hr.
    destruct (create_item req w) as [[resp|x] w']; cbn.
    + intros _. split; [done |]. destruct He as (_ & u & r & Hu & Hn & ->).
      exists u, r. repeat split; try done. by apply map_size_insert_None.
    + destruct (Hr w' x eq_refl) as (code & Hc & Hcode).
      destruct x as [[] ctx]; cbn in Hc; try discriminate Hc.
      injection Hc as ->. cbn. lia.
  - intros H. by apply other_views_not_201 in H.
Qed.

Lemma created_means_one_new_row_witness :
  method Scenario.post_AB = "POST"
  /\ exists u r,
       Uuid.in_range u
       /\ table (Scenario.empty_world Scenario.reliable) !! u = None
       /\ table (snd (wsgi_app Scenario.post_AB
                        (Scenario.empty_world Scenario.reliable)))
          = <[u := r]> (table (Scenario.empty_world Scenario.reliable))
       /\ size (table (snd (wsgi_app Scenario.post_AB
                              (Scenario.empty_world Scenario.reliable))))
          = S (size (table (Scenario.empty_world Scenario.reliable))).
Proof.
  apply (created_means_one_new_row Scenario.post_AB
           (Scenario.empty_world Scenario.reliable)).
  vm_compute; reflexivity.
Defined.

(** X22: a created item is listed. After POST /items with string name a
    and description b, neither holding a NUL character (which the driver
    refuses), GET /items answers 200 with a list that has one entry more
    than the table had rows and that holds the new item: its generated id,
    title a, description b and the time of creation. The database is taken
    to answer both round trips and the generated id to be unused. *)
Theorem create_then_list (w : World) (d : list (string * value)) (a b : string) :
  dict_get d "name" = Some (VStr a) ->
  dict_get d "description" = Some (VStr b) ->
  has_char is_nul a = false ->
  has_char is_nul b = false ->
  driver_fault (env w) (io_count w) = None ->
  driver_fault (env w) (S (io_count w)) = None ->
  table w !! Uuid.uuid4 (urandom (env w) (rand_count w)) = None ->
  let u := Uuid.uuid4 (urandom (env w) (rand_count w)) in
  let '(created, w1) := wsgi_app (mkRequest "POST" "/items" (Json (VDict d))) w in
  let '(listed, _) := wsgi_app (mkRequest "GET" "/items" NotJson) w1 in
  status created = 201%nat
  /\ status listed = 200%nat
  /\ exists l,
       data listed = VList l
       /\ length l = S (size (table w))
       /\ to_dict (load u (mkRow (VStr a) (VStr b)
                             (Some (clock (env w) (clock_count w))))) ∈ l.
Proof.
  intros Hn Hd Ha Hb Hf1 Hf2 Hu u.
  destruct (HandlerFacts.create_item_stores w "POST" "/items" d _ _ Hn Hd
              (HandlerFacts.adapt_str a Ha) (HandlerFacts.adapt_str b Hb) Hf1 Hu)
    as (w1 & Hc & Ht & He & Hio).
  unfold wsgi_app, dispatch_request. cbn [path method].
  change (adapter_match "/items" "POST") with (Matched ep_create_item []).
  change (adapter_match "/items" "GET") with (Matched ep_get_items []).
  cbn [String.eqb Ascii.eqb Bool.eqb call_view]. rewrite Hc.
  run. rewrite He, Hio, Hf2. cbn. split; [done |]. split; [done |].
  eexists. split; [reflexivity |]. split.
  - rewrite !length_fmap, length_map_to_list, Ht.
    by apply map_size_insert_None.
  - apply list_elem_of_fmap. eexists. split; [reflexivity |].
    apply list_elem_of_fmap. exists (u, mkRow (VStr a) (VStr b)
                                    (Some (clock (env w) (clock_count w)))).
    split; [done |]. apply elem_of_map_to_list. rewrite Ht.
    apply lookup_insert_eq.
Qed.

Lemma create_then_list_witness :
  let '(created, w1) :=
    wsgi_app Scenario.post_AB (Scenario.empty_world Scenario.reliable) in
  let '(listed, _) := wsgi_app (mkRequest "GET" "/items" NotJson) w1 in
  status created = 201%nat
  /\ status listed = 200%nat
  /\ exists l,
       data listed = VList l
       /\ length l = S (size (∅ : gmap N Row))
       /\ to_dict (load Scenario.first_id
                     (mkRow (VStr "A") (VStr "B") (Some 0%Z))) ∈ l.
Proof.
  exact (create_then_list (Scenario.empty_world Scenario.reliable)
           [("name", VStr "A"); ("description", VStr "B")] "A" "B"
           eq_refl eq_refl eq_refl eq_refl eq_refl eq_refl (lookup_empty _)).
Defined.

End CreateFacts.
